(** * audalign: fingerprint generation (src/audalign/fingerprint.py)

    A shallow embedding of the peak extractor [get_2D_peaks] and of the hash
    generator [generate_hashes], together with the parts of the Python
    runtime, of [hashlib] and of [scipy.ndimage] that these two functions
    call, followed by the properties of the fingerprinting pipeline.

    Conventions of the embedding:
    - Python integers are [Z]; Python floats (binary64) are [spec_float]
      with precision 53 and maximal exponent 1024;
    - the indices that numpy returns are [np.int64]: a [Z] whose
      subtraction wraps around at 64 bits and whose division is the
      division of floats, which raises nothing;
    - Python exceptions are the constructors of [exn], and a computation
      that may raise has type [result A];
    - the dictionary returned by [generate_hashes] is a [gmap string (list Z)];
    - a two-dimensional numpy array is the list of its rows;
    - what [maximum_filter] reads when an index leaves the array is not
      determined by the array: it is a parameter, [outside], of every
      function that runs the filter. *)

From Stdlib Require Import ZArith List Bool Lia Sorted.
From Stdlib Require Import Floats.SpecFloat.
From stdpp Require Import base numbers list list_numbers strings pretty gmap.

Local Open Scope Z_scope.

(* ===================================================================== *)
(** ** The Python runtime *)
(* ===================================================================== *)

Module Py.

(** The exceptions that the modelled code can raise. *)
Inductive exn : Type :=
  | ZeroDivisionError
  | OverflowError
  | IndexError.

Inductive result (A : Type) : Type :=
  | Ok (a : A)
  | Raise (e : exn).
Arguments Ok {A} a.
Arguments Raise {A} e.

Definition bind {A B} (m : result A) (k : A → result B) : result B :=
  match m with
  | Ok a => k a
  | Raise e => Raise e
  end.

Definition rmap {A B} (f : A → B) (m : result A) : result B :=
  match m with
  | Ok a => Ok (f a)
  | Raise e => Raise e
  end.

#[global] Instance result_ret : MRet result := @Ok.
#[global] Instance result_bind : MBind result := λ A B k m, bind m k.
#[global] Instance result_fmap : FMap result := @rmap.

(** [for x in xs: body], threading the loop state; an exception leaves the
    loop at once. *)
Fixpoint for_in {A S} (xs : list A) (body : A → S → result S) (s : S)
  : result S :=
  match xs with
  | [] => Ok s
  | x :: xs' =>
      match body x s with
      | Ok s' => for_in xs' body s'
      | Raise e => Raise e
      end
  end.

(** [range(lo, hi)]: empty when [hi <= lo]. *)
Definition range (lo hi : Z) : list Z := seqZ lo (hi - lo).

(** [l[i]] on a list: negative indices count from the end, an index out of
    range raises [IndexError]. *)
Definition getitem {A} (l : list A) (i : Z) : result A :=
  let n := Z.of_nat (length l) in
  let i' := if i <? 0 then i + n else i in
  if (0 <=? i') && (i' <? n) then
    match l !! Z.to_nat i' with
    | Some x => Ok x
    | None => Raise IndexError
    end
  else Raise IndexError.

(** [sorted(l, key=key)]: the sort is stable, so its result is the one of
    the stable insertion sort below. *)
Fixpoint insert_by {A} (key : A → Z) (x : A) (l : list A) : list A :=
  match l with
  | [] => [x]
  | y :: l' => if key x <=? key y then x :: y :: l' else y :: insert_by key x l'
  end.

Fixpoint sorted {A} (key : A → Z) (l : list A) : list A :=
  match l with
  | [] => []
  | x :: l' => insert_by key x (sorted key l')
  end.

(** [str(n)] for an integer. *)
Definition str (n : Z) : string := pretty n.

(** *** Floats *)

Definition prec : Z := 53.
Definition emax : Z := 1024.

Definition float_of_int_exact (a : Z) : spec_float :=
  match a with
  | Z0 => S754_zero false
  | Zpos m => S754_finite false m 0
  | Zneg m => S754_finite true m 0
  end.

(** The quotient [a / b] rounds to a magnitude above the largest float,
    [2^1024 - 2^971], from half an ulp above it on. *)
Definition overflows (a b : Z) : bool :=
  (2 ^ 1024 - 2 ^ 970) * Z.abs b <=? Z.abs a.

(** [a / b] on integers (true division): the quotient rounded to the nearest
    binary64, ties to even. A zero divisor raises [ZeroDivisionError], a
    quotient too large for a float raises [OverflowError]; a zero dividend
    gives a zero whose sign is the sign of the divisor. *)
Definition int_true_divide (a b : Z) : result spec_float :=
  if b =? 0 then Raise ZeroDivisionError
  else if overflows a b then Raise OverflowError
  else if a =? 0 then Ok (S754_zero (b <? 0))
  else Ok (SFdiv prec emax (float_of_int_exact a) (float_of_int_exact b)).

(** Rounding of [m * 2^e] to the nearest integer, ties to even. *)
Definition round_half_even_scaled (m e : Z) : Z :=
  if 0 <=? e then m * 2 ^ e
  else
    let d := 2 ^ (- e) in
    let q := m / d in
    let r := m mod d in
    match 2 * r ?= d with
    | Lt => q
    | Gt => q + 1
    | Eq => if Z.even q then q else q + 1
    end.

Definition zero_pad (width : nat) (s : string) : string :=
  String.concat "" (replicate (width - String.length s) "0"%string) +:+ s.

Definition sign_prefix (s : bool) : string := if s then "-" else "".

(** [f"{x:.Nf}"]: fixed notation with [digits] fractional digits; the exact
    binary value is rounded to the nearest multiple of [10^-digits], ties to
    even, and the sign bit is always shown. *)
Definition format_fixed (digits : nat) (x : spec_float) : string :=
  let scale := 10 ^ Z.of_nat digits in
  let body (n : Z) : string :=
    str (n / scale) +:+ "." +:+ zero_pad digits (str (n mod scale)) in
  match x with
  | S754_nan => "nan"
  | S754_infinity s => sign_prefix s +:+ "inf"
  | S754_zero s => sign_prefix s +:+ body 0
  | S754_finite s m e =>
      sign_prefix s +:+ body (round_half_even_scaled (Z.pos m * scale) e)
  end.

(** [s.encode("utf-8")] for a string of ASCII characters: the code points. *)
Definition encode_utf8 (s : string) : list Z :=
  (λ c, Z.of_nat (Ascii.nat_of_ascii c)) <$> String.list_ascii_of_string s.

(** [s[0:n]]. *)
Definition slice_to (n : nat) (s : string) : string :=
  String.string_of_list_ascii (take n (String.list_ascii_of_string s)).

End Py.

Import Py.

(* ===================================================================== *)
(** ** numpy integers *)
(* ===================================================================== *)

Module Numpy.

(** The float of an integer: the nearest binary64, ties to even. *)
Definition float_of_Z (z : Z) : spec_float :=
  binary_normalize prec emax z 0 false.

(** An [np.int64] is an integer of [-2^63, 2^63); its arithmetic wraps
    around. *)
Definition wrap64 (x : Z) : Z := (x + 2 ^ 63) mod 2 ^ 64 - 2 ^ 63.

Definition int64_subtract (a b : Z) : Z := wrap64 (a - b).

(** [a / b] on [np.int64]: both operands are converted to [np.float64]
    and divided as floats. A zero divisor gives an infinity, or a NaN for
    0 / 0, and no exception: the module sets [np.seterr(divide="ignore")]
    and numpy only warns of an invalid value. *)
Definition int64_true_divide (a b : Z) : spec_float :=
  SFdiv prec emax (float_of_Z a) (float_of_Z b).

End Numpy.

Import Numpy.

(* ===================================================================== *)
(** ** hashlib.sha1 *)
(* ===================================================================== *)

Module Sha1.

(** 32-bit words are integers in [0, 2^32); every operation that can leave
    that range is followed by [wrap]. *)
Definition wrap (x : Z) : Z := x mod 2 ^ 32.

Definition add32 (x y : Z) : Z := wrap (x + y).

Definition rotl (n x : Z) : Z :=
  wrap (Z.lor (Z.shiftl x n) (Z.shiftr x (32 - n))).

Definition not32 (x : Z) : Z := Z.lxor x (2 ^ 32 - 1).

Record state : Type := State { h0 : Z; h1 : Z; h2 : Z; h3 : Z; h4 : Z }.

Definition init : state :=
  State 0x67452301 0xEFCDAB89 0x98BADCFE 0x10325476 0xC3D2E1F0.

(** Padding: the byte 0x80, zero bytes up to 56 modulo 64, then the length
    of the message in bits as a 64-bit big-endian integer. *)
Definition be_bytes (n : nat) (x : Z) : list Z :=
  (λ i, Z.shiftr x (8 * Z.of_nat i) mod 256) <$> rev (seq 0 n).

Definition pad (msg : list Z) : list Z :=
  let len := Z.of_nat (length msg) in
  let zeros := Z.to_nat ((55 - len) mod 64) in
  msg ++ [0x80] ++ replicate zeros 0 ++ be_bytes 8 (8 * len).

Definition be_word (bs : list Z) : Z :=
  fold_left (λ acc b, acc * 256 + b) bs 0.

Fixpoint words (n : nat) (bs : list Z) : list Z :=
  match n with
  | O => []
  | S n' => be_word (take 4 bs) :: words n' (drop 4 bs)
  end.

(** The message schedule, kept newest word first. *)
Fixpoint schedule_rev (n : nat) (ws : list Z) : list Z :=
  match n with
  | O => ws
  | S n' =>
      let w := rotl 1 (Z.lxor (Z.lxor (Z.lxor (nth 2 ws 0) (nth 7 ws 0))
                                  (nth 13 ws 0)) (nth 15 ws 0)) in
      schedule_rev n' (w :: ws)
  end.

Definition schedule (block : list Z) : list Z :=
  rev (schedule_rev 64 (rev (words 16 block))).

Definition round_fk (t : nat) (b c d : Z) : Z * Z :=
  if (t <? 20)%nat then (Z.lor (Z.land b c) (Z.land (not32 b) d), 0x5A827999)
  else if (t <? 40)%nat then (Z.lxor (Z.lxor b c) d, 0x6ED9EBA1)
  else if (t <? 60)%nat then
    (Z.lor (Z.lor (Z.land b c) (Z.land b d)) (Z.land c d), 0x8F1BBCDC)
  else (Z.lxor (Z.lxor b c) d, 0xCA62C1D6).

Definition round (s : state) (tw : nat * Z) : state :=
  let '(t, w) := tw in
  let '(State a b c d e) := s in
  let '(f, k) := round_fk t b c d in
  State (add32 (add32 (add32 (add32 (rotl 5 a) f) e) k) w) a (rotl 30 b) c d.

Definition compress (s : state) (block : list Z) : state :=
  let '(State a b c d e) := fold_left round (imap pair (schedule block)) s in
  State (add32 (h0 s) a) (add32 (h1 s) b) (add32 (h2 s) c)
        (add32 (h3 s) d) (add32 (h4 s) e).

Fixpoint blocks (n : nat) (bs : list Z) : list (list Z) :=
  match n with
  | O => []
  | S n' => take 64 bs :: blocks n' (drop 64 bs)
  end.

Definition digest (msg : list Z) : state :=
  let p := pad msg in
  fold_left compress (blocks (length p / 64) p) init.

Definition hex_char (d : Z) : Ascii.ascii :=
  nth (Z.to_nat (d mod 16))
      (String.list_ascii_of_string "0123456789abcdef") (Ascii.ascii_of_nat 48).

Definition hex_word (w : Z) : list Ascii.ascii :=
  (λ i, hex_char (Z.shiftr w (4 * Z.of_nat i))) <$> rev (seq 0 8).

(** [hashlib.sha1(msg).hexdigest()] *)
Definition hexdigest (msg : list Z) : string :=
  let '(State a b c d e) := digest msg in
  String.string_of_list_ascii
    (hex_word a ++ hex_word b ++ hex_word c ++ hex_word d ++ hex_word e).

End Sha1.

(* ===================================================================== *)
(** ** numpy arrays and scipy.ndimage *)
(* ===================================================================== *)

Module Ndimage.

(** A two-dimensional array is the list of its rows; all rows of a numpy
    array have the same length, the length of the first one. *)
Definition ndarray : Type := list (list spec_float).
Definition mask : Type := list (list bool).

Definition nrows {A} (a : list (list A)) : Z := Z.of_nat (length a).
Definition ncols {A} (a : list (list A)) : Z := Z.of_nat (length (hd [] a)).

Definition fzero : spec_float := S754_zero false.

Definition lookup2 {A} (a : list (list A)) (r c : Z) : option A :=
  if (r <? 0) || (c <? 0) then None
  else a !! Z.to_nat r ≫= λ row, row !! Z.to_nat c.

Definition cell (a : ndarray) (r c : Z) : spec_float :=
  default fzero (lookup2 a r c).

(** The value of a mask at a position, [border] outside of it. *)
Definition mask_at (m : mask) (border : bool) (r c : Z) : bool :=
  default border (lookup2 m r c).

(** Elementwise construction of an array of the shape of [a]. *)
Definition tabulate {A B} (a : list (list A)) (f : Z → Z → A → B)
  : list (list B) :=
  imap (λ r row, imap (λ c x, f (Z.of_nat r) (Z.of_nat c) x) row) a.

(** [generate_binary_structure(2, connectivity)] *)
Definition generate_binary_structure2 (connectivity : Z) : mask :=
  let conn := Z.max connectivity 1 in
  (λ r, (λ c, Z.abs (r - 1) + Z.abs (c - 1) <=? conn) <$> [0; 1; 2])
    <$> [0; 1; 2].

(** The offsets of the true cells of a structuring element from its centre,
    in row-major order. *)
Definition offsets (s : mask) : list (Z * Z) :=
  let cr := nrows s / 2 in
  let cc := ncols s / 2 in
  concat (imap (λ r row,
    omap id (imap (λ c (b : bool),
      if b then Some (Z.of_nat r - cr, Z.of_nat c - cc) else None) row)) s).

(** One step of [binary_dilation] with border value 0. *)
Definition binary_dilation1 (input structure : mask) : mask :=
  tabulate input (λ r c _,
    existsb (λ d, mask_at input false (r - d.1) (c - d.2)) (offsets structure)).

Definition binary_dilation (input structure : mask) (iterations : nat) : mask :=
  Nat.iter iterations (λ m, binary_dilation1 m structure) input.

(** [iterate_structure(structure, iterations)]: the structure dilated with
    itself [iterations - 1] times; fewer than two iterations return the
    structure itself. *)
Definition iterate_structure (structure : mask) (iterations : Z) : mask :=
  if iterations <? 2 then structure
  else
    let ni := iterations - 1 in
    let h := nrows structure in
    let w := ncols structure in
    let pr := ni * (h / 2) in
    let pc := ni * (w / 2) in
    let out :=
      (λ r, (λ c, mask_at structure false (r - pr) (c - pc))
              <$> range 0 (w + ni * (w - 1)))
        <$> range 0 (h + ni * (h - 1)) in
    binary_dilation out structure (Z.to_nat ni).

(** Index extension of mode [reflect], d c b a | a b c d | d c b a, as the
    filters compute it for the index [cc] on an axis of length [len]:

      if (cc < 0) {
          if (len <= 1) cc = 0;
          else { int sz2 = 2 * len;
                 if (cc < -sz2) cc += sz2 * (int)(-cc / sz2);
                 cc = cc < -len ? cc + sz2 : -cc - 1; }
      } else if (cc >= len) {
          if (len <= 1) cc = 0;
          else { int sz2 = 2 * len;
                 cc -= sz2 * (int)(cc / sz2);
                 if (cc >= len) cc = sz2 - cc - 1; }
      }

    An index that lies a whole number of periods, at least two, below zero
    is brought back to 0 and then mapped to -1, outside of the axis. *)
Definition reflect (len cc : Z) : Z :=
  if cc <? 0 then
    if len <=? 1 then 0
    else
      let sz2 := 2 * len in
      let cc := if cc <? - sz2 then cc + sz2 * ((- cc) ÷ sz2) else cc in
      if cc <? - len then cc + sz2 else - cc - 1
  else if len <=? cc then
    if len <=? 1 then 0
    else
      let sz2 := 2 * len in
      let cc := cc - sz2 * (cc ÷ sz2) in
      if len <=? cc then sz2 - cc - 1 else cc
  else cc.

(** What the filter reads at the extended indices [r] and [c]. It adds the
    indices, times the strides of the array, to the address of its first
    cell and reads the float at that address. With both indices on their
    axes that is the cell [(r, c)]. With an index -1 it is, depending on
    the layout of the array, another cell or memory in front of the array:
    a value that the array does not determine at these indices,
    [outside r c]. *)
Definition read (outside : Z → Z → spec_float) (input : ndarray) (r c : Z)
  : spec_float :=
  if (r <? 0) || (c <? 0) then outside r c else cell input r c.

(** The running maximum of the filter: [if tmp > res: res = tmp]. *)
Definition max_step (res tmp : spec_float) : spec_float :=
  if SFltb res tmp then tmp else res.

(** [maximum_filter(input, footprint=footprint)] with the default mode
    [reflect]. The footprint has at least one true cell. *)
Definition maximum_filter (outside : Z → Z → spec_float) (input : ndarray)
    (footprint : mask) : ndarray :=
  let h := nrows input in
  let w := ncols input in
  let at_ (r c : Z) (d : Z * Z) : spec_float :=
    read outside input (reflect h (r + d.1)) (reflect w (c + d.2)) in
  tabulate input (λ r c x,
    match offsets footprint with
    | [] => x
    | d0 :: ds => fold_left (λ res d, max_step res (at_ r c d)) ds (at_ r c d0)
    end).

(** [binary_erosion(input, structure=structure, border_value=border)] *)
Definition binary_erosion (input structure : mask) (border : bool) : mask :=
  tabulate input (λ r c _,
    forallb (λ d, mask_at input border (r + d.1) (c + d.2)) (offsets structure)).

(** [a == b] and [a == x] on arrays, [m1 ^ m2] on masks. *)
Definition eq_array (a b : ndarray) : mask :=
  tabulate a (λ r c x, SFeqb x (cell b r c)).

Definition eq_scalar (a : ndarray) (x : spec_float) : mask :=
  tabulate a (λ _ _ y, SFeqb y x).

Definition xor_mask (m1 m2 : mask) : mask :=
  tabulate m1 (λ r c b, xorb b (mask_at m2 false r c)).

(** The positions of the true cells of a mask, in row-major order. *)
Definition true_cells (m : mask) : list (Z * Z) :=
  concat (imap (λ r row,
    omap id (imap (λ c (b : bool),
      if b then Some (Z.of_nat r, Z.of_nat c) else None) row)) m).

(** [np.where(m)]: the row indices and the column indices. *)
Definition where_ (m : mask) : list Z * list Z :=
  (fst <$> true_cells m, snd <$> true_cells m).

(** [a[m]]: the values of [a] at the true cells of [m]. *)
Definition select (a : ndarray) (m : mask) : list spec_float :=
  (λ p, cell a p.1 p.2) <$> true_cells m.

End Ndimage.

Import Ndimage.

(* ===================================================================== *)
(** ** fingerprint.py *)
(* ===================================================================== *)

(** The module constants. A peak is a tuple whose component [IDX_FREQ_I]
    is the frequency index and whose component [IDX_TIME_J] is the time
    index: [p.1] and [p.2] of a pair [p]. [DEFAULT_AMP_MIN] is 65, as a
    float 65 * 2^46 * 2^-46. *)
Definition IDX_FREQ_I : Z := 0.
Definition IDX_TIME_J : Z := 1.
Definition DEFAULT_FAN_VALUE : Z := 15.
Definition DEFAULT_AMP_MIN : spec_float :=
  S754_finite false 4573968371548160 (-46).
Definition PEAK_NEIGHBORHOOD_SIZE : Z := 20.
Definition MIN_HASH_TIME_DELTA : Z := 10.
Definition MAX_HASH_TIME_DELTA : Z := 200.
Definition PEAK_SORT : bool := true.
Definition FINGERPRINT_REDUCTION : nat := 20.

Fixpoint zip3 {A B C} (xs : list A) (ys : list B) (zs : list C)
  : list (A * B * C) :=
  match xs, ys, zs with
  | x :: xs', y :: ys', z :: zs' => (x, y, z) :: zip3 xs' ys' zs'
  | _, _, _ => []
  end.

(** The body of [get_2D_peaks] up to the filter: the triples
    [(i, j, amp)] of the detected peaks whose amplitude exceeds [amp_min]. *)
Definition peaks_filtered (outside : Z → Z → spec_float) (arr2D : ndarray)
    (amp_min : spec_float) : list (Z * Z * spec_float) :=
  let struct := generate_binary_structure2 1 in
  let neighborhood := iterate_structure struct PEAK_NEIGHBORHOOD_SIZE in
  let local_max :=
    eq_array (maximum_filter outside arr2D neighborhood) arr2D in
  let background := eq_scalar arr2D fzero in
  let eroded_background := binary_erosion background neighborhood true in
  let detected_peaks := xor_mask local_max eroded_background in
  let amps := select arr2D detected_peaks in
  let '(j, i) := where_ detected_peaks in
  let peaks := zip3 i j amps in
  filter (λ x, SFltb amp_min x.2 = true) peaks.

(** [get_2D_peaks(arr2D, plot=False, amp_min)]: the pairs
    [(frequency index, time index)] of the peaks, each index an
    [np.int64]. *)
Definition get_2D_peaks (outside : Z → Z → spec_float) (arr2D : ndarray)
    (amp_min : spec_float) : list (Z * Z) :=
  let frequency_idx :=
    (λ x : Z * Z * spec_float, x.1.2)
      <$> peaks_filtered outside arr2D amp_min in
  let time_idx :=
    (λ x : Z * Z * spec_float, x.1.1)
      <$> peaks_filtered outside arr2D amp_min in
  zip frequency_idx time_idx.

(** The key of a triple of peaks: the first [FINGERPRINT_REDUCTION]
    characters of the SHA-1 hexdigest of the feature string. *)
Definition feature_string (freq1 freq2 freq3 : Z) (ratio : spec_float)
  : string :=
  str (freq1 - freq2) +:+ "|" +:+ str (freq2 - freq3) +:+ "|"
    +:+ format_fixed 8 ratio.

Definition fingerprint_hash (freq1 freq2 freq3 : Z) (ratio : spec_float)
  : string :=
  slice_to FINGERPRINT_REDUCTION
    (Sha1.hexdigest (encode_utf8 (feature_string freq1 freq2 freq3 ratio))).

(** [if h not in hash_dict: hash_dict[h] = [t] else: hash_dict[h] += [t]] *)
Definition record_offset (h : string) (t : Z) (hash_dict : gmap string (list Z))
  : gmap string (list Z) :=
  match hash_dict !! h with
  | None => <[h := [t]]> hash_dict
  | Some ts => <[h := ts ++ [t]]> hash_dict
  end.

(** *** [generate_hashes] on peaks of Python integers *)

(** The body of the innermost loop of [generate_hashes], for the anchor
    at index [i], [(freq1, t1)], the second peak [(freq2, t2)] and the
    offset [k] of the third peak. *)
Definition third_peak_loop (peaks : list (Z * Z))
    (min_hash_time_delta max_hash_time_delta : Z)
    (i freq1 t1 freq2 t2 : Z) (k : Z) (hash_dict : gmap string (list Z))
  : result (gmap string (list Z)) :=
  if i + k <? Z.of_nat (length peaks) then
    p3 ← getitem peaks (i + k);
    let freq3 := p3.1 in
    let t3 := p3.2 in
    let t_delta := t3 - t1 in
    if (min_hash_time_delta <=? t_delta) && (t_delta <=? max_hash_time_delta)
    then
      let t_delta := t2 - t1 in
      if (min_hash_time_delta <=? t_delta) && (t_delta <=? max_hash_time_delta)
      then
        ratio ← int_true_divide (t2 - t1) (t3 - t1);
        let h := fingerprint_hash freq1 freq2 freq3 ratio in
        Ok (record_offset h t1 hash_dict)
      else Ok hash_dict
    else Ok hash_dict
  else Ok hash_dict.

Definition second_peak_loop (peaks : list (Z * Z)) (fan_value : Z)
    (min_hash_time_delta max_hash_time_delta : Z)
    (i freq1 t1 : Z) (j : Z) (hash_dict : gmap string (list Z))
  : result (gmap string (list Z)) :=
  if i + j <? Z.of_nat (length peaks) then
    p2 ← getitem peaks (i + j);
    let freq2 := p2.1 in
    let t2 := p2.2 in
    for_in (range (j + 1) fan_value)
      (third_peak_loop peaks min_hash_time_delta max_hash_time_delta
         i freq1 t1 freq2 t2)
      hash_dict
  else Ok hash_dict.

Definition anchor_loop (peaks : list (Z * Z)) (fan_value : Z)
    (min_hash_time_delta max_hash_time_delta : Z)
    (i : Z) (hash_dict : gmap string (list Z))
  : result (gmap string (list Z)) :=
  p1 ← getitem peaks i;
  let freq1 := p1.1 in
  let t1 := p1.2 in
  for_in (range 1 (fan_value - 1))
    (second_peak_loop peaks fan_value min_hash_time_delta max_hash_time_delta
       i freq1 t1)
    hash_dict.

(** The peak list that the loops run over. *)
Definition arrange (peak_sort : bool) (peaks : list (Z * Z)) : list (Z * Z) :=
  if peak_sort then sorted snd peaks else peaks.

(** [generate_hashes(peaks, fan_value, min_hash_time_delta,
    max_hash_time_delta, peak_sort)] *)
Definition generate_hashes (peaks : list (Z * Z)) (fan_value : Z)
    (min_hash_time_delta max_hash_time_delta : Z) (peak_sort : bool)
  : result (gmap string (list Z)) :=
  let hash_dict : gmap string (list Z) := ∅ in
  let peaks := arrange peak_sort peaks in
  for_in (range 0 (Z.of_nat (length peaks)))
    (anchor_loop peaks fan_value min_hash_time_delta max_hash_time_delta)
    hash_dict.

(** *** [generate_hashes] on peaks of any integers

    [generate_hashes] subtracts, compares and divides the components of
    the peaks with the operators of their type. The loops below are the
    ones above with the subtraction and the division as parameters: with
    those of Python integers they are the definitions above, with those
    of [np.int64] they are what [fingerprint] runs, whose peaks come from
    [np.where]. *)
Record integers : Type := Integers {
  subtract : Z → Z → Z;
  true_divide : Z → Z → result spec_float
}.

Definition python_int : integers :=
  {| subtract := Z.sub; true_divide := int_true_divide |}.

Definition numpy_int64 : integers :=
  {| subtract := int64_subtract;
     true_divide := λ a b, Ok (int64_true_divide a b) |}.

Definition fingerprint_hash_on (num : integers) (freq1 freq2 freq3 : Z)
    (ratio : spec_float) : string :=
  slice_to FINGERPRINT_REDUCTION
    (Sha1.hexdigest (encode_utf8
       (str (subtract num freq1 freq2) +:+ "|"
          +:+ str (subtract num freq2 freq3) +:+ "|"
          +:+ format_fixed 8 ratio))).

Definition third_peak_loop_on (num : integers) (peaks : list (Z * Z))
    (min_hash_time_delta max_hash_time_delta : Z)
    (i freq1 t1 freq2 t2 : Z) (k : Z) (hash_dict : gmap string (list Z))
  : result (gmap string (list Z)) :=
  if i + k <? Z.of_nat (length peaks) then
    p3 ← getitem peaks (i + k);
    let freq3 := p3.1 in
    let t3 := p3.2 in
    let t_delta := subtract num t3 t1 in
    if (min_hash_time_delta <=? t_delta) && (t_delta <=? max_hash_time_delta)
    then
      let t_delta := subtract num t2 t1 in
      if (min_hash_time_delta <=? t_delta) && (t_delta <=? max_hash_time_delta)
      then
        ratio ← true_divide num (subtract num t2 t1) (subtract num t3 t1);
        let h := fingerprint_hash_on num freq1 freq2 freq3 ratio in
        Ok (record_offset h t1 hash_dict)
      else Ok hash_dict
    else Ok hash_dict
  else Ok hash_dict.

Definition second_peak_loop_on (num : integers) (peaks : list (Z * Z))
    (fan_value : Z) (min_hash_time_delta max_hash_time_delta : Z)
    (i freq1 t1 : Z) (j : Z) (hash_dict : gmap string (list Z))
  : result (gmap string (list Z)) :=
  if i + j <? Z.of_nat (length peaks) then
    p2 ← getitem peaks (i + j);
    let freq2 := p2.1 in
    let t2 := p2.2 in
    for_in (range (j + 1) fan_value)
      (third_peak_loop_on num peaks min_hash_time_delta max_hash_time_delta
         i freq1 t1 freq2 t2)
      hash_dict
  else Ok hash_dict.

Definition anchor_loop_on (num : integers) (peaks : list (Z * Z))
    (fan_value : Z) (min_hash_time_delta max_hash_time_delta : Z)
    (i : Z) (hash_dict : gmap string (list Z))
  : result (gmap string (list Z)) :=
  p1 ← getitem peaks i;
  let freq1 := p1.1 in
  let t1 := p1.2 in
  for_in (range 1 (fan_value - 1))
    (second_peak_loop_on num peaks fan_value min_hash_time_delta
       max_hash_time_delta i freq1 t1)
    hash_dict.

Definition generate_hashes_on (num : integers) (peaks : list (Z * Z))
    (fan_value : Z) (min_hash_time_delta max_hash_time_delta : Z)
    (peak_sort : bool) : result (gmap string (list Z)) :=
  let hash_dict : gmap string (list Z) := ∅ in
  let peaks := arrange peak_sort peaks in
  for_in (range 0 (Z.of_nat (length peaks)))
    (anchor_loop_on num peaks fan_value min_hash_time_delta
       max_hash_time_delta)
    hash_dict.

(** The last two statements of [fingerprint], from the log-scaled
    spectrogram on: peak extraction, then hashing of the [np.int64]
    indices of the peaks. *)
Definition fingerprint_of_spectrogram (outside : Z → Z → spec_float)
    (arr2D : ndarray) (fan_value : Z) (amp_min : spec_float)
    (min_hash_time_delta max_hash_time_delta : Z) (peak_sort : bool)
  : result (gmap string (list Z)) :=
  let local_maxima := get_2D_peaks outside arr2D amp_min in
  generate_hashes_on numpy_int64 local_maxima fan_value min_hash_time_delta
    max_hash_time_delta peak_sort.

(* ===================================================================== *)
(** ** Calls and the objects they share *)
(* ===================================================================== *)

(** What an argument [peaks] can be: a sequence (a list of tuples of
    Python integers), which [list(peaks)] copies, or the [zip] iterator
    that [get_2D_peaks] returns, which yields tuples of [np.int64] and
    which [list(peaks)] drains. *)
Inductive iterable : Type :=
  | Sequence (items : list (Z * Z))
  | ZipIterator (id : nat).

(** The iterators alive in the interpreter, each with the items it has yet
    to yield. Nothing else outlives a call: [hash_dict] is created by every
    call of [generate_hashes] and the module constants are never assigned. *)
Abbreviation store := (list (list (Z * Z))).

Definition new_zip (items : list (Z * Z)) (σ : store) : iterable * store :=
  (ZipIterator (length σ), σ ++ [items]).

(** [list(peaks)] *)
Definition list_of (peaks : iterable) (σ : store) : list (Z * Z) * store :=
  match peaks with
  | Sequence items => (items, σ)
  | ZipIterator id => (default [] (σ !! id), <[id := []]> σ)
  end.

(** The integers that the items of [peaks] are made of. *)
Definition integers_of (peaks : iterable) : integers :=
  match peaks with
  | Sequence _ => python_int
  | ZipIterator _ => numpy_int64
  end.

Definition call_get_2D_peaks (outside : Z → Z → spec_float) (arr2D : ndarray)
    (amp_min : spec_float) (σ : store) : iterable * store :=
  new_zip (get_2D_peaks outside arr2D amp_min) σ.

Definition call_generate_hashes (peaks : iterable) (fan_value : Z)
    (min_hash_time_delta max_hash_time_delta : Z) (peak_sort : bool)
    (σ : store) : result (gmap string (list Z)) * store :=
  let '(items, σ') := list_of peaks σ in
  (generate_hashes_on (integers_of peaks) items fan_value min_hash_time_delta
     max_hash_time_delta peak_sort, σ').


(* ===================================================================== *)
(** ** Vocabulary of the properties *)
(* ===================================================================== *)

(** *** The hash generator *)

(** The dictionary built from a sequence of (hash, offset) pairs recorded in
    that order. *)
Definition accumulate (log : list (string * Z)) : gmap string (list Z) :=
  fold_left (λ d ht, record_offset ht.1 ht.2 d) log ∅.

(** The offsets recorded under [h], in the order of their discovery. *)
Definition offsets_of (h : string) (log : list (string * Z)) : list Z :=
  snd <$> filter (λ ht, ht.1 = h) log.

(** [(h, t)] is what a triple of peaks of [peaks] at the indices [i],
    [i + j] and [i + k], with [1 <= j < k < fan_value], records when both its
    time differences lie in the window [lo, hi]. *)
Definition contribution (peaks : list (Z * Z)) (fan_value lo hi : Z)
    (ht : string * Z) : Prop :=
  ∃ (i j k freq1 t1 freq2 t2 freq3 t3 : Z) (ratio : spec_float),
    0 ≤ i ∧ 1 ≤ j ∧ j < k ∧ k < fan_value ∧
    peaks !! Z.to_nat i = Some (freq1, t1) ∧
    peaks !! Z.to_nat (i + j) = Some (freq2, t2) ∧
    peaks !! Z.to_nat (i + k) = Some (freq3, t3) ∧
    lo ≤ t3 - t1 ≤ hi ∧
    lo ≤ t2 - t1 ≤ hi ∧
    int_true_divide (t2 - t1) (t3 - t1) = Ok ratio ∧
    ht = (fingerprint_hash freq1 freq2 freq3 ratio, t1).

(** The state of the loops of [generate_hashes]: a dictionary accumulated
    from contributions of in-window triples only. *)
Definition from_window (peaks : list (Z * Z)) (fan_value lo hi : Z)
    (d : gmap string (list Z)) : Prop :=
  ∃ log, d = accumulate log ∧ Forall (contribution peaks fan_value lo hi) log.

Definition hex_digits : list Ascii.ascii :=
  String.list_ascii_of_string "0123456789abcdef".

(** A string of lower-case hexadecimal characters. *)
Definition is_hex (s : string) : Prop :=
  Forall (λ c, c ∈ hex_digits) (String.list_ascii_of_string s).

Definition shift_time (c : Z) (p : Z * Z) : Z * Z := (p.1, p.2 + c).

Definition shift_offsets (c : Z) (m : gmap string (list Z))
  : gmap string (list Z) :=
  fmap (M := list) (λ t, t + c) <$> m.

(** The peaks are in ascending order of time. *)
Definition time_ordered (peaks : list (Z * Z)) : Prop :=
  ∀ (a b : nat) (x y : Z * Z),
    (a ≤ b)%nat → peaks !! a = Some x → peaks !! b = Some y → x.2 ≤ y.2.

(** The smallest quotient magnitude that is too large for a float. *)
Definition float_overflow_bound : Z := 2 ^ 1024 - 2 ^ 970.

(** *** The peak extractor *)

(** The mask of the detected peaks of [get_2D_peaks]. *)
Definition detected_peaks (outside : Z → Z → spec_float) (arr2D : ndarray)
  : mask :=
  let neighborhood :=
    iterate_structure (generate_binary_structure2 1) PEAK_NEIGHBORHOOD_SIZE in
  xor_mask (eq_array (maximum_filter outside arr2D neighborhood) arr2D)
    (binary_erosion (eq_scalar arr2D fzero) neighborhood true).

(** The triples [(i, j, amp)] before the filter: column, row and value
    of every detected peak. *)
Definition candidate_peaks (outside : Z → Z → spec_float) (arr2D : ndarray)
  : list (Z * Z * spec_float) :=
  (λ p : Z * Z, (p.2, p.1, cell arr2D p.1 p.2))
    <$> true_cells (detected_peaks outside arr2D).

(** An axis on which the neighbourhood of [get_2D_peaks] never leaves the
    array: its length is at most 1, or more than a quarter of
    [PEAK_NEIGHBORHOOD_SIZE], that is at least 6. *)
Definition axis_in_bounds (len : Z) : Prop :=
  len ≤ 1 ∨ PEAK_NEIGHBORHOOD_SIZE < 4 * len.

(** A grid on which [maximum_filter] reads cells of the grid only. *)
Definition reads_in_bounds {A} (a : list (list A)) : Prop :=
  axis_in_bounds (nrows a) ∧ axis_in_bounds (ncols a).

(** Memory in which every float is [v]. *)
Definition filled (v : spec_float) : Z → Z → spec_float := λ _ _, v.

(** [x == 0] holds: [x] is one of the two zeros. *)
Definition is_zero (x : spec_float) : Prop := SFeqb x fzero = true.

(** Evaluation of the bind of [result]. *)
Ltac run_bind := unfold mbind, result_bind, bind.

(* ===================================================================== *)
(** ** Vocabulary of the further properties *)
(* ===================================================================== *)

(** *** Further vocabulary of the hash generator *)

Definition shift_freq (c : Z) (p : Z * Z) : Z * Z := (p.1 + c, p.2).

(** The offset [t] is stored under the key [h]. *)
Definition stored (m : gmap string (list Z)) (h : string) (t : Z) : Prop :=
  ∃ ts, m !! h = Some ts ∧ t ∈ ts.

(** Every offset of the dictionary is the time of a peak. *)
Definition offsets_from (peaks : list (Z * Z)) (d : gmap string (list Z))
  : Prop :=
  ∀ h t, stored d h t → ∃ freq, (freq, t) ∈ peaks.

(** The number of offsets of a dictionary, over all its keys. *)
Definition total_offsets (m : gmap string (list Z)) : Z :=
  map_fold (λ _ ts n, Z.of_nat (length ts) + n) 0 m.

(** The offsets recorded so far are in ascending order and belong to
    anchors before the index [i]. *)
Definition ascending_log (peaks : list (Z * Z)) (i : Z)
    (d : gmap string (list Z)) : Prop :=
  ∃ log, d = accumulate log ∧ StronglySorted Z.le log.*2 ∧
    Forall (λ ht : string * Z,
      ∃ i' freq, 0 ≤ i' < i ∧ peaks !! Z.to_nat i' = Some (freq, ht.2)) log.

(** *** Further vocabulary of the peak extractor *)

(** The neighbourhood of [get_2D_peaks]. *)
Definition peak_neighborhood : mask :=
  iterate_structure (generate_binary_structure2 1) PEAK_NEIGHBORHOOD_SIZE.

(** The value of [maximum_filter] at a cell: the running maximum over the
    offsets of the footprint, from the first one on. *)
Definition running_max {A} (value : A → spec_float) (ds : list A)
    (init : spec_float) : spec_float :=
  fold_left (λ res d, max_step res (value d)) ds init.

(** The scan order of the cells: by row, then by column. *)
Definition scan_lt (p q : Z * Z) : Prop :=
  p.1 < q.1 ∨ (p.1 = q.1 ∧ p.2 < q.2).

(** Every row has the length of the first one. *)
Definition rectangular {A} (a : list (list A)) : Prop :=
  Forall (λ row, Z.of_nat (length row) = ncols a) a.

(** [arr2D[arr2D == -np.inf] = 0] *)
Definition replace_neg_infinity (arr2D : ndarray) : ndarray :=
  tabulate arr2D (λ _ _ x, if SFeqb x (S754_infinity true) then fzero else x).

(** [10 * np.log2(arr2D)], for the base-2 logarithm [log2] of numpy, which
    is not modelled. *)
Definition log_transform (log2 : spec_float → spec_float) (arr2D : ndarray)
  : ndarray :=
  tabulate arr2D (λ _ _ x, SFmul prec emax (float_of_Z 10) (log2 x)).

(** [fingerprint], from the array that [mlab.specgram] returns on. *)
Definition fingerprint_of_specgram (log2 : spec_float → spec_float)
    (outside : Z → Z → spec_float) (arr2D : ndarray) (fan_value : Z)
    (amp_min : spec_float) (min_hash_time_delta max_hash_time_delta : Z)
    (peak_sort : bool) : result (gmap string (list Z)) :=
  let arr2D := log_transform log2 arr2D in
  let arr2D := replace_neg_infinity arr2D in
  fingerprint_of_spectrogram outside arr2D fan_value amp_min
    min_hash_time_delta max_hash_time_delta peak_sort.

(** Case analysis of a comparison of floats. *)
Ltac float_cases :=
  unfold SFleb, SFltb, SFeqb;
  repeat match goal with
    | x : spec_float |- _ => destruct x as [[]|[]| |[] ? ?]
    end;
  simpl; try done;
  rewrite ?Pos.compare_cont_spec; simpl;
  repeat match goal with
    | |- context [Z.compare ?a ?b] =>
        destruct (Z.compare_spec a b); simpl; try done; try lia
    end;
  repeat match goal with
    | |- context [Pos.compare ?a ?b] =>
        destruct (Pos.compare_spec a b); simpl; try done; try lia
    end.

(* ===================================================================== *)
(** ** The embedding at work *)
(* ===================================================================== *)

Example sha1_abc :
  Sha1.hexdigest (encode_utf8 "abc")
    = "a9993e364706816aba3e25717850c26c9cd0d89d"%string.
Proof. vm_compute. reflexivity. Qed.

Example sha1_two_blocks :
  Sha1.hexdigest
    (encode_utf8 "abcdbcdecdefdefgefghfghighijhijkijkljklmklmnlmnomnopnopq")
    = "84983e441c3bd26ebaae4aa1f95129e5e54670f1"%string.
Proof. vm_compute. reflexivity. Qed.

(** 15 / 30 is 0.5, 1 / 3 is rounded to 53 bits, 0 / -5 is -0.0. *)
Example true_division :
  int_true_divide 15 30 = Ok (S754_finite false 4503599627370496 (-53)) ∧
  int_true_divide 1 3 = Ok (S754_finite false 6004799503160661 (-54)) ∧
  int_true_divide 0 (-5) = Ok (S754_zero true) ∧
  int_true_divide 5 0 = Raise ZeroDivisionError.
Proof. vm_compute. repeat split; reflexivity. Qed.

(** The largest quotient that is a float, and the first one that is not. *)
Example true_division_overflow :
  int_true_divide (float_overflow_bound - 1) 1
    = Ok (S754_finite false 9007199254740991 971) ∧
  int_true_divide float_overflow_bound 1 = Raise OverflowError.
Proof. vm_compute. split; reflexivity. Qed.

Example fixed_notation :
  format_fixed 8 <$> int_true_divide 15 30 = Ok "0.50000000"%string ∧
  format_fixed 8 <$> int_true_divide 1 3 = Ok "0.33333333"%string ∧
  format_fixed 8 <$> int_true_divide 2 3 = Ok "0.66666667"%string ∧
  format_fixed 8 <$> int_true_divide (-7) 2 = Ok "-3.50000000"%string ∧
  format_fixed 8 <$> int_true_divide 0 (-5) = Ok "-0.00000000"%string ∧
  format_fixed 8 <$> int_true_divide 3 200000000 = Ok "0.00000001"%string.
Proof. vm_compute. repeat split; reflexivity. Qed.

(** The sort keeps the input order of peaks with equal times. *)
Example sorted_is_stable :
  sorted snd [(1, 5); (2, 3); (3, 5); (4, 3)] = [(2, 3); (4, 3); (1, 5); (3, 5)].
Proof. reflexivity. Qed.

(** Two iterations of the cross give the diamond of radius 2; the
    neighbourhood of [get_2D_peaks] is the diamond of radius 20. *)
Example iterate_structure_diamond :
  iterate_structure (generate_binary_structure2 1) 2
    = [ [false; false; true; false; false];
        [false; true; true; true; false];
        [true; true; true; true; true];
        [false; true; true; true; false];
        [false; false; true; false; false] ] ∧
  offsets (iterate_structure (generate_binary_structure2 1) PEAK_NEIGHBORHOOD_SIZE)
    = filter (λ d : Z * Z, Z.abs d.1 + Z.abs d.2 ≤ 20)
        (r ← range (-20) 21; c ← range (-20) 21; [(r, c)]).
Proof. vm_compute. split; reflexivity. Qed.

(** The extension of an index: on an axis of length 6 the index -20 is
    reflected to 4; on an axis of length 5 it lies two periods below zero
    and is mapped to -1, as -8 is on an axis of length 2. *)
Example reflect_indices :
  reflect 6 <$> [-20; -13; -12; -7; -1; 0; 5; 6; 11; 12; 25]
    = [4; 0; 0; 5; 0; 0; 5; 5; 0; 0; 1] ∧
  reflect 5 <$> [-20; -11; -10; -1; 4; 5; 24] = [-1; 0; 0; 0; 4; 4; 4] ∧
  reflect 2 <$> [-20; -12; -9; -8; -7; -5; -4; -3] = [-1; -1; 0; -1; 1; 0; 0; 1] ∧
  reflect 1 <$> [-20; -1; 0; 1; 20] = [0; 0; 0; 0; 0].
Proof. vm_compute. repeat split; reflexivity. Qed.

(** A 6 x 6 grid with three cells above the floor: only the largest one is
    the maximum of its neighbourhood, at frequency 2 and time 3; no read
    leaves the grid. *)
Example get_2D_peaks_small_grid (outside : Z → Z → spec_float) :
  get_2D_peaks outside
    (fmap (M := list) (fmap (M := list) float_of_Z)
       [[0; 0; 0; 0; 0; 0]; [0; 70; 0; 0; 0; 0]; [0; 0; 0; 80; 0; 0];
        [66; 0; 0; 0; 0; 0]; [0; 0; 0; 0; 0; 0]; [0; 0; 0; 0; 0; 0]])
    DEFAULT_AMP_MIN
    = [(2, 3)].
Proof. vm_compute. reflexivity. Qed.

(** On [np.int64], 15 / 30 is 0.5, 5 / 0 is inf, -5 / 0 is -inf and 0 / 0
    is nan; the feature string shows them as Python shows floats. *)
Example true_division_int64 :
  format_fixed 8 <$> [int64_true_divide 15 30; int64_true_divide 1 3;
                      int64_true_divide 5 0; int64_true_divide (-5) 0;
                      int64_true_divide 0 0; int64_true_divide 0 (-5)]
    = ["0.50000000"; "0.33333333"; "inf"; "-inf"; "nan"; "-0.00000000"]%string ∧
  int64_subtract (2 ^ 63 - 1) (-1) = - 2 ^ 63 ∧
  int64_subtract 3 5 = -2.
Proof. vm_compute. repeat split; reflexivity. Qed.

(** Three simultaneous peaks and a window that holds 0: on Python
    integers the division raises, on [np.int64] it gives nan and the call
    returns a dictionary with the key of "0|0|nan". *)
Example generate_hashes_zero_divisor :
  generate_hashes_on python_int [(0, 0); (0, 0); (0, 0)] 15 0 200 true
    = Raise ZeroDivisionError ∧
  generate_hashes_on numpy_int64 [(0, 0); (0, 0); (0, 0)] 15 0 200 true
    = Ok {[ slice_to 20 (Sha1.hexdigest (encode_utf8 "0|0|nan")) := [0] ]}.
Proof. vm_compute. split; reflexivity. Qed.

(** Six peaks: nineteen triples lie in the window, each under a hash of
    its own. *)
Example generate_hashes_six_peaks :
  (λ m : gmap string (list Z), (size m, m !! "b692efed1b4e70671fb2"%string))
    <$> generate_hashes
          [(10, 0); (8, 15); (5, 30); (7, 40); (1, 41); (3, 100)] 15 10 200 false
    = Ok (19%nat, Some [0]).
Proof. vm_compute. reflexivity. Qed.

(* ===================================================================== *)
(** ** Loops, indexing and sorting *)
(* ===================================================================== *)

Section Loops.
Context {A S : Type}.
Implicit Types (xs : list A) (body : A → S → result S).

(** A property of the loop state that every iteration preserves holds
    when the loop ends normally. *)
Lemma for_in_invariant (I : S → Prop) xs body s s' :
  (∀ x t t', x ∈ xs → I t → body x t = Ok t' → I t') →
  I s → for_in xs body s = Ok s' → I s'.
Proof.
  revert s. induction xs as [|x xs IH]; intros s Hstep Hs Hrun; simpl in Hrun.
  - by injection Hrun as <-.
  - destruct (body x s) as [t|e] eqn:Hb; [|done].
    apply (IH t); [|by eapply Hstep; [left|..]|done].
    intros y u u' Hy. apply Hstep. by right.
Qed.

(** If no iteration raises in a state satisfying the invariant, the loop
    ends normally. *)
Lemma for_in_total (I : S → Prop) xs body s :
  (∀ x t, x ∈ xs → I t → ∃ t', body x t = Ok t' ∧ I t') →
  I s → ∃ s', for_in xs body s = Ok s' ∧ I s'.
Proof.
  revert s. induction xs as [|x xs IH]; intros s Hstep Hs; simpl.
  - by exists s.
  - destruct (Hstep x s) as (t & -> & Ht); [by left|done|].
    apply IH; [|done]. intros y u Hy. apply Hstep. by right.
Qed.

(** A loop whose iterations never raise [e] does not raise [e]. *)
Lemma for_in_never (e : exn) xs body s :
  (∀ x t, x ∈ xs → body x t ≠ Raise e) → for_in xs body s ≠ Raise e.
Proof.
  revert s. induction xs as [|x xs IH]; intros s Hstep; simpl; [done|].
  destruct (body x s) as [t|e'] eqn:Hb.
  - apply IH. intros y u Hy. apply Hstep. by right.
  - rewrite <- Hb. apply Hstep. by left.
Qed.

(** Iterations that leave the state alone make the loop the identity. *)
Lemma for_in_skip xs body s :
  (∀ x t, x ∈ xs → body x t = Ok t) → for_in xs body s = Ok s.
Proof.
  induction xs as [|x xs IH]; intros Hstep; simpl; [done|].
  rewrite Hstep by (by left). apply IH. intros y u Hy. apply Hstep. by right.
Qed.
End Loops.

(** Two loops over the same items whose bodies commute with a map [f] of
    the state. *)
Lemma for_in_simulation {A S T} (f : S → T) (xs : list A)
    (body1 : A → S → result S) (body2 : A → T → result T) (s : S) :
  (∀ x t, x ∈ xs → body2 x (f t) = rmap f (body1 x t)) →
  for_in xs body2 (f s) = rmap f (for_in xs body1 s).
Proof.
  revert s. induction xs as [|x xs IH]; intros s Hstep; simpl; [done|].
  rewrite Hstep by (by left). destruct (body1 x s) as [t|e]; simpl; [|done].
  apply IH. intros y u Hy. apply Hstep. by right.
Qed.

Lemma elem_of_range (lo hi k : Z) : k ∈ range lo hi ↔ lo ≤ k < hi.
Proof. unfold range. rewrite elem_of_seqZ. lia. Qed.

Lemma getitem_in_range {A} (l : list A) (i : Z) :
  0 ≤ i < Z.of_nat (length l) →
  ∃ x, getitem l i = Ok x ∧ l !! Z.to_nat i = Some x.
Proof.
  intros Hi. unfold getitem.
  destruct (Z.ltb_spec i 0); [lia|].
  destruct (Z.leb_spec 0 i); [|lia].
  destruct (Z.ltb_spec i (Z.of_nat (length l))); [|lia]. simpl.
  destruct (lookup_lt_is_Some_2 l (Z.to_nat i)) as [x Hx]; [lia|].
  exists x. by rewrite Hx.
Qed.

Lemma insert_by_fmap {A} (key : A → Z) (f : A → A) (x : A) (l : list A) :
  (∀ a b, (key (f a) <=? key (f b)) = (key a <=? key b)) →
  insert_by key (f x) (f <$> l) = f <$> insert_by key x l.
Proof.
  intros Hkey. induction l as [|y l IH]; [done|].
  rewrite fmap_cons. cbn [insert_by]. rewrite Hkey.
  destruct (key x <=? key y); [done|]. by rewrite fmap_cons, IH.
Qed.

(** Sorting commutes with a map that preserves the order of the keys. *)
Lemma sorted_fmap {A} (key : A → Z) (f : A → A) (l : list A) :
  (∀ a b, (key (f a) <=? key (f b)) = (key a <=? key b)) →
  sorted key (f <$> l) = f <$> sorted key l.
Proof.
  intros Hkey. induction l as [|x l IH]; [done|].
  rewrite fmap_cons. cbn [sorted]. rewrite IH. by apply insert_by_fmap.
Qed.

Lemma insert_by_Permutation {A} (key : A → Z) (x : A) (l : list A) :
  insert_by key x l ≡ₚ x :: l.
Proof.
  induction l as [|y l IH]; simpl; [done|].
  destruct (key x <=? key y); [done|]. rewrite IH. apply Permutation_swap.
Qed.

Lemma sorted_Permutation {A} (key : A → Z) (l : list A) : sorted key l ≡ₚ l.
Proof.
  induction l as [|x l IH]; simpl; [done|].
  by rewrite insert_by_Permutation, IH.
Qed.

(* ===================================================================== *)
(** ** The hash generator: what the dictionary holds *)
(* ===================================================================== *)

Lemma accumulate_snoc (log : list (string * Z)) (h : string) (t : Z) :
  accumulate (log ++ [(h, t)]) = record_offset h t (accumulate log).
Proof. unfold accumulate. by rewrite fold_left_app. Qed.

Lemma record_offset_lookup (h h' : string) (t : Z) (d : gmap string (list Z)) :
  record_offset h t d !! h' =
    if decide (h = h') then Some (default [] (d !! h) ++ [t]) else d !! h'.
Proof.
  unfold record_offset. destruct (d !! h) as [ts|] eqn:Hd; simpl;
    rewrite lookup_insert; by case_decide.
Qed.

(** The dictionary holds, under each hash, exactly the offsets recorded
    under it, in order, and no key without offsets. *)
Lemma accumulate_lookup (log : list (string * Z)) (h : string) :
  accumulate log !! h =
    match offsets_of h log with
    | [] => None
    | ts => Some ts
    end.
Proof.
  induction log as [|[h' t] log IH] using rev_ind; [done|].
  rewrite accumulate_snoc, record_offset_lookup. unfold offsets_of in *.
  rewrite filter_app, fmap_app, filter_cons, filter_nil. simpl.
  case_decide as Hh; subst.
  - rewrite IH. by destruct (snd <$> filter _ log).
  - rewrite IH. simpl. by rewrite app_nil_r.
Qed.

Lemma elem_of_offsets_of (h : string) (t : Z) (log : list (string * Z)) :
  t ∈ offsets_of h log ↔ (h, t) ∈ log.
Proof.
  unfold offsets_of. rewrite list_elem_of_fmap. split.
  - intros ([h' t'] & -> & [Hh Hin]%list_elem_of_filter). simpl in *. by subst.
  - intros Hin. exists (h, t). split; [done|]. by apply list_elem_of_filter.
Qed.

Lemma accumulate_entry (log : list (string * Z)) (h : string) (ts : list Z) (t : Z) :
  accumulate log !! h = Some ts → t ∈ ts → (h, t) ∈ log.
Proof.
  rewrite accumulate_lookup. intros Hts Ht. apply elem_of_offsets_of.
  destruct (offsets_of h log); [done|]. by injection Hts as <-.
Qed.

Section GenerateHashes.
Variables (peaks : list (Z * Z)) (fan_value lo hi : Z).

Lemma third_peak_loop_from_window i j freq1 t1 freq2 t2 k d d' :
  0 ≤ i → 1 ≤ j → j < k → k < fan_value →
  peaks !! Z.to_nat i = Some (freq1, t1) →
  peaks !! Z.to_nat (i + j) = Some (freq2, t2) →
  from_window peaks fan_value lo hi d →
  third_peak_loop peaks lo hi i freq1 t1 freq2 t2 k d = Ok d' →
  from_window peaks fan_value lo hi d'.
Proof.
  intros Hi Hj Hjk Hk H1 H2 Hd. unfold third_peak_loop.
  destruct (Z.ltb_spec (i + k) (Z.of_nat (length peaks))) as [Hlen|];
    [|by intros [= <-]].
  destruct (getitem_in_range peaks (i + k)) as ([freq3 t3] & -> & H3); [lia|].
  run_bind. cbn [fst snd].
  destruct (Z.leb_spec lo (t3 - t1)); [|by intros [= <-]].
  destruct (Z.leb_spec (t3 - t1) hi); [|by intros [= <-]].
  destruct (Z.leb_spec lo (t2 - t1)); [|by intros [= <-]].
  destruct (Z.leb_spec (t2 - t1) hi); [|by intros [= <-]].
  cbn [andb].
  destruct (int_true_divide (t2 - t1) (t3 - t1)) as [ratio|] eqn:Hdiv; [|done].
  intros [= <-]. destruct Hd as (log & -> & Hlog).
  exists (log ++ [(fingerprint_hash freq1 freq2 freq3 ratio, t1)]). split.
  - by rewrite accumulate_snoc.
  - apply Forall_app. split; [done|]. apply Forall_singleton.
    exists i, j, k, freq1, t1, freq2, t2, freq3, t3, ratio.
    repeat split; try done; lia.
Qed.

Lemma second_peak_loop_from_window i freq1 t1 j d d' :
  0 ≤ i → 1 ≤ j →
  peaks !! Z.to_nat i = Some (freq1, t1) →
  from_window peaks fan_value lo hi d →
  second_peak_loop peaks fan_value lo hi i freq1 t1 j d = Ok d' →
  from_window peaks fan_value lo hi d'.
Proof.
  intros Hi Hj H1 Hd. unfold second_peak_loop.
  destruct (Z.ltb_spec (i + j) (Z.of_nat (length peaks))) as [Hlen|];
    [|by intros [= <-]].
  destruct (getitem_in_range peaks (i + j)) as ([freq2 t2] & -> & H2); [lia|].
  run_bind. cbn [fst snd]. apply for_in_invariant; [|done].
  intros k u u' [? ?]%elem_of_range Hu.
  by apply (third_peak_loop_from_window i j); try lia.
Qed.

Lemma anchor_loop_from_window i d d' :
  0 ≤ i < Z.of_nat (length peaks) →
  from_window peaks fan_value lo hi d →
  anchor_loop peaks fan_value lo hi i d = Ok d' →
  from_window peaks fan_value lo hi d'.
Proof.
  intros Hi Hd. unfold anchor_loop.
  destruct (getitem_in_range peaks i) as ([freq1 t1] & -> & H1); [lia|].
  run_bind. cbn [fst snd]. apply for_in_invariant; [|done].
  intros j u u' [? ?]%elem_of_range Hu.
  by apply second_peak_loop_from_window; try lia.
Qed.
End GenerateHashes.

(** The iteration of a triple with a time difference outside the window
    leaves the dictionary as it is. *)
Lemma third_peak_loop_outside_window peaks lo hi i freq1 t1 freq2 t2 k freq3 t3 d :
  0 ≤ i + k →
  peaks !! Z.to_nat (i + k) = Some (freq3, t3) →
  ¬ (lo ≤ t3 - t1 ≤ hi ∧ lo ≤ t2 - t1 ≤ hi) →
  third_peak_loop peaks lo hi i freq1 t1 freq2 t2 k d = Ok d.
Proof.
  intros Hik H3 Hout. unfold third_peak_loop.
  destruct (Z.ltb_spec (i + k) (Z.of_nat (length peaks))) as [Hlen|]; [|done].
  destruct (getitem_in_range peaks (i + k)) as (p3 & -> & H3'); [lia|].
  rewrite H3 in H3'. injection H3' as <-. run_bind. cbn [fst snd].
  destruct (Z.leb_spec lo (t3 - t1)); [|done].
  destruct (Z.leb_spec (t3 - t1) hi); [|done].
  destruct (Z.leb_spec lo (t2 - t1)); [|done].
  destruct (Z.leb_spec (t2 - t1) hi); [|done]. lia.
Qed.

(** The returned dictionary is accumulated from the contributions of
    in-window triples of the arranged peak list. *)
Lemma generate_hashes_from_window peaks fan_value lo hi peak_sort m :
  generate_hashes peaks fan_value lo hi peak_sort = Ok m →
  from_window (arrange peak_sort peaks) fan_value lo hi m.
Proof.
  unfold generate_hashes. apply for_in_invariant.
  - intros i u u' Hi%elem_of_range Hu. by apply anchor_loop_from_window.
  - exists []. by split.
Qed.

(* ===================================================================== *)
(** ** The shape of the keys *)
(* ===================================================================== *)

Lemma length_string_of_list_ascii (l : list Ascii.ascii) :
  String.length (String.string_of_list_ascii l) = length l.
Proof. induction l as [|c l IH]; simpl; [done|]. by rewrite IH. Qed.

Lemma hex_char_is_hex (d : Z) : Sha1.hex_char d ∈ hex_digits.
Proof.
  unfold Sha1.hex_char. fold hex_digits.
  assert (Z.to_nat (d mod 16) < 16)%nat as Hlt
    by (pose proof (Z.mod_pos_bound d 16); lia).
  destruct (lookup_lt_is_Some_2 hex_digits (Z.to_nat (d mod 16))) as [c Hc];
    [done|].
  rewrite (nth_lookup_Some _ _ _ _ Hc). by eapply list_elem_of_lookup_2.
Qed.

Lemma hex_word_shape (w : Z) :
  length (Sha1.hex_word w) = 8%nat ∧ Forall (λ c, c ∈ hex_digits) (Sha1.hex_word w).
Proof.
  unfold Sha1.hex_word. split; [done|].
  apply Forall_fmap, Forall_forall. intros i _. apply hex_char_is_hex.
Qed.

(** The hexdigest of SHA-1 has 40 hexadecimal characters. *)
Lemma hexdigest_shape (msg : list Z) :
  String.length (Sha1.hexdigest msg) = 40%nat ∧ is_hex (Sha1.hexdigest msg).
Proof.
  unfold Sha1.hexdigest, is_hex. destruct (Sha1.digest msg) as [a b c d e].
  rewrite length_string_of_list_ascii, String.list_ascii_of_string_of_list_ascii.
  rewrite !length_app, !Forall_app.
  pose proof (hex_word_shape a) as [-> ?]. pose proof (hex_word_shape b) as [-> ?].
  pose proof (hex_word_shape c) as [-> ?]. pose proof (hex_word_shape d) as [-> ?].
  pose proof (hex_word_shape e) as [-> ?]. done.
Qed.

Lemma slice_to_shape (n : nat) (s : string) :
  (n ≤ String.length s)%nat → is_hex s →
  String.length (slice_to n s) = n ∧ is_hex (slice_to n s).
Proof.
  unfold slice_to, is_hex. intros Hn Hs.
  rewrite length_string_of_list_ascii, String.list_ascii_of_string_of_list_ascii.
  split.
  - rewrite length_take.
    rewrite <- (String.string_of_list_ascii_of_string s) in Hn.
    rewrite length_string_of_list_ascii in Hn. lia.
  - by apply Forall_take.
Qed.

Lemma fingerprint_hash_shape (freq1 freq2 freq3 : Z) (ratio : spec_float) :
  String.length (fingerprint_hash freq1 freq2 freq3 ratio) = FINGERPRINT_REDUCTION
  ∧ is_hex (fingerprint_hash freq1 freq2 freq3 ratio).
Proof.
  unfold fingerprint_hash.
  destruct (hexdigest_shape
    (encode_utf8 (feature_string freq1 freq2 freq3 ratio))) as [Hlen Hhex].
  apply slice_to_shape; [|done]. rewrite Hlen. unfold FINGERPRINT_REDUCTION. lia.
Qed.

(* ===================================================================== *)
(** ** Properties of the hash generator *)
(* ===================================================================== *)

(** C1 (delta-window exclusion). When [generate_hashes] returns a dictionary,
    the dictionary is accumulated from a sequence of contributions each of
    which comes from a triple of peaks whose differences [t3 - t1] and
    [t2 - t1] both lie in [min_hash_time_delta, max_hash_time_delta]
    (bounds included); so every key has at least one offset, and every
    offset stored under a key was recorded by such a triple with that hash
    and that anchor time. The iteration of a triple with a difference
    outside the window leaves the dictionary unchanged. *)
Theorem delta_window_exclusion (peaks : list (Z * Z))
    (fan_value min_hash_time_delta max_hash_time_delta : Z) (peak_sort : bool)
    (m : gmap string (list Z)) :
  generate_hashes peaks fan_value min_hash_time_delta max_hash_time_delta
    peak_sort = Ok m →
  (∃ log : list (string * Z),
     m = accumulate log ∧
     Forall (contribution (arrange peak_sort peaks) fan_value
               min_hash_time_delta max_hash_time_delta) log) ∧
  (∀ (h : string) (ts : list Z), m !! h = Some ts →
    ts ≠ [] ∧
    ∀ t, t ∈ ts →
      ∃ (i j k freq1 t1 freq2 t2 freq3 t3 : Z) (ratio : spec_float),
        0 ≤ i ∧ 1 ≤ j ∧ j < k ∧ k < fan_value ∧
        arrange peak_sort peaks !! Z.to_nat i = Some (freq1, t1) ∧
        arrange peak_sort peaks !! Z.to_nat (i + j) = Some (freq2, t2) ∧
        arrange peak_sort peaks !! Z.to_nat (i + k) = Some (freq3, t3) ∧
        min_hash_time_delta ≤ t3 - t1 ≤ max_hash_time_delta ∧
        min_hash_time_delta ≤ t2 - t1 ≤ max_hash_time_delta ∧
        int_true_divide (t2 - t1) (t3 - t1) = Ok ratio ∧
        (h, t) = (fingerprint_hash freq1 freq2 freq3 ratio, t1)) ∧
  ∀ (i k freq1 t1 freq2 t2 freq3 t3 : Z) (d : gmap string (list Z)),
    0 ≤ i + k →
    arrange peak_sort peaks !! Z.to_nat (i + k) = Some (freq3, t3) →
    ¬ (min_hash_time_delta ≤ t3 - t1 ≤ max_hash_time_delta ∧
       min_hash_time_delta ≤ t2 - t1 ≤ max_hash_time_delta) →
    third_peak_loop (arrange peak_sort peaks) min_hash_time_delta
      max_hash_time_delta i freq1 t1 freq2 t2 k d = Ok d.
Proof.
  intros Hrun. pose proof (generate_hashes_from_window _ _ _ _ _ _ Hrun) as Hm.
  split; [done|]. split; [|by intros; eapply third_peak_loop_outside_window].
  destruct Hm as (log & -> & Hlog). intros h ts Hts. split.
  - rewrite accumulate_lookup in Hts.
    destruct (offsets_of h log); [done|]. by injection Hts as <-.
  - intros t Ht. pose proof (accumulate_entry _ _ _ _ Hts Ht) as Hin.
    rewrite Forall_forall in Hlog. apply (Hlog _ Hin).
Qed.

Lemma delta_window_exclusion_witness :
  let m : gmap string (list Z) := {[ "b692efed1b4e70671fb2"%string := [0] ]} in
  generate_hashes [(10, 0); (8, 15); (5, 30)] 15 10 200 true = Ok m ∧
  ∃ log : list (string * Z),
    m = accumulate log ∧
    Forall (contribution (arrange true [(10, 0); (8, 15); (5, 30)]) 15 10 200) log.
Proof.
  intros m.
  assert (generate_hashes [(10, 0); (8, 15); (5, 30)] 15 10 200 true = Ok m)
    as Hrun by (vm_compute; reflexivity).
  split; [exact Hrun|].
  exact (proj1 (delta_window_exclusion _ _ _ _ _ _ Hrun)).
Defined.

(** C2 (end-to-end scenario). For the three peaks (10, 0), (8, 15), (5, 30)
    with fan value 15 and window [10, 200], sorted or not, the feature
    string of the only triple is "2|3|0.50000000" and the dictionary has the
    single key made of the first 20 hexadecimal characters of its SHA-1
    digest, with the offsets [0]. *)
Theorem end_to_end_scenario (peak_sort : bool) :
  Py.rmap (feature_string 10 8 5) (int_true_divide (15 - 0) (30 - 0))
    = Ok "2|3|0.50000000"%string ∧
  generate_hashes [(10, 0); (8, 15); (5, 30)] 15 10 200 peak_sort
    = Ok {[ slice_to FINGERPRINT_REDUCTION
              (Sha1.hexdigest (encode_utf8 "2|3|0.50000000")) := [0] ]} ∧
  slice_to FINGERPRINT_REDUCTION (Sha1.hexdigest (encode_utf8 "2|3|0.50000000"))
    = "b692efed1b4e70671fb2"%string.
Proof. destruct peak_sort; vm_compute; repeat split; reflexivity. Qed.

(** C4, as the code behaves. [generate_hashes] validates nothing: with an
    empty window ([min_hash_time_delta > max_hash_time_delta]) or a fan value
    that is not positive it returns the empty dictionary without raising.
    (The neighbourhood size is the constant [PEAK_NEIGHBORHOOD_SIZE], not an
    argument of [get_2D_peaks].) *)
Theorem invalid_configuration_yields_empty_map (peaks : list (Z * Z))
    (fan_value min_hash_time_delta max_hash_time_delta : Z) (peak_sort : bool) :
  min_hash_time_delta > max_hash_time_delta ∨ fan_value ≤ 0 →
  generate_hashes peaks fan_value min_hash_time_delta max_hash_time_delta
    peak_sort = Ok ∅.
Proof.
  intros Hcfg. unfold generate_hashes. apply for_in_skip.
  intros i d Hi%elem_of_range. unfold anchor_loop.
  destruct (getitem_in_range (arrange peak_sort peaks) i) as ([freq1 t1] & -> & _);
    [lia|].
  run_bind. apply for_in_skip. intros j u Hj%elem_of_range.
  unfold second_peak_loop. case_match; [|done].
  destruct (getitem_in_range (arrange peak_sort peaks) (i + j))
    as ([freq2 t2] & -> & _); [lia|].
  run_bind. apply for_in_skip. intros k v Hk%elem_of_range.
  unfold third_peak_loop. case_match; [|done].
  destruct (getitem_in_range (arrange peak_sort peaks) (i + k))
    as ([freq3 t3] & -> & _); [lia|].
  run_bind. cbn [fst snd]. destruct Hcfg as [Hwin|Hfan]; [|lia].
  destruct (Z.leb_spec min_hash_time_delta (t3 - t1)); [|done].
  destruct (Z.leb_spec (t3 - t1) max_hash_time_delta); [lia|done].
Qed.

Lemma invalid_configuration_yields_empty_map_witness :
  (200 > 10 ∨ 15 ≤ 0) ∧
  generate_hashes [(10, 0); (8, 15); (5, 30)] 15 200 10 true = Ok ∅.
Proof.
  split; [left; lia|].
  apply (invalid_configuration_yields_empty_map
           [(10, 0); (8, 15); (5, 30)] 15 200 10 true).
  left; lia.
Defined.

(** C4, as stated, fails: an invalid configuration does not make the call
    raise. *)
Lemma invalid_configuration_not_rejected :
  ¬ (∀ (peaks : list (Z * Z)) (fan_value lo hi : Z) (peak_sort : bool),
       lo > hi ∨ fan_value ≤ 0 →
       ∃ e, generate_hashes peaks fan_value lo hi peak_sort = Raise e).
Proof.
  intros H.
  destruct (H [(10, 0); (8, 15); (5, 30)] 15 200 10 true) as [e He];
    [left; lia|].
  vm_compute in He. discriminate He.
Qed.

(** C8 (hash length). Every key of the returned dictionary is the first
    [FINGERPRINT_REDUCTION] = 20 characters of a SHA-1 hexdigest, hence a
    string of exactly 20 hexadecimal characters, and when no peak has a
    negative time index every stored offset is non-negative. *)
Theorem keys_and_offsets_shape (peaks : list (Z * Z))
    (fan_value min_hash_time_delta max_hash_time_delta : Z) (peak_sort : bool)
    (m : gmap string (list Z)) :
  Forall (λ p, 0 ≤ p.2) peaks →
  generate_hashes peaks fan_value min_hash_time_delta max_hash_time_delta
    peak_sort = Ok m →
  ∀ (h : string) (ts : list Z), m !! h = Some ts →
    String.length h = FINGERPRINT_REDUCTION ∧ FINGERPRINT_REDUCTION = 20%nat ∧
    is_hex h ∧
    (∃ msg, String.length (Sha1.hexdigest msg) = 40%nat ∧
            h = slice_to 20 (Sha1.hexdigest msg)) ∧
    Forall (λ t, 0 ≤ t) ts.
Proof.
  intros Hpos Hrun h ts Hts.
  destruct (generate_hashes_from_window _ _ _ _ _ _ Hrun) as (log & -> & Hlog).
  rewrite Forall_forall in Hlog.
  assert (∀ t, t ∈ ts →
            contribution (arrange peak_sort peaks) fan_value
              min_hash_time_delta max_hash_time_delta (h, t)) as Hfrom.
  { intros t Ht. apply Hlog. by eapply accumulate_entry. }
  assert (ts ≠ []) as Hne.
  { rewrite accumulate_lookup in Hts.
    destruct (offsets_of h log); [done|]. by injection Hts as <-. }
  destruct ts as [|t0 ts']; [done|].
  destruct (Hfrom t0) as (i & j & k & f1 & t1 & f2 & t2 & f3 & t3 & r & Hc);
    [by left|].
  destruct Hc as (_ & _ & _ & _ & _ & _ & _ & _ & _ & _ & [= -> _]).
  destruct (fingerprint_hash_shape f1 f2 f3 r) as [Hlen Hhex].
  repeat split; try done.
  - eexists. split; [apply hexdigest_shape|]. reflexivity.
  - apply Forall_forall. intros t Ht.
    destruct (Hfrom t Ht)
      as (i' & j' & k' & f1' & t1' & f2' & t2' & f3' & t3' & r' & Hc').
    destruct Hc' as (_ & _ & _ & _ & H1 & _ & _ & _ & _ & _ & [= _ ->]).
    apply list_elem_of_lookup_2 in H1.
    assert ((f1', t1') ∈ peaks) as Hin.
    { unfold arrange in H1. destruct peak_sort; [|done].
      by apply (elem_of_Permutation_proper _ _ _ (sorted_Permutation snd peaks)). }
    rewrite Forall_forall in Hpos. apply (Hpos _ Hin).
Qed.

Lemma keys_and_offsets_shape_witness :
  let m : gmap string (list Z) := {[ "b692efed1b4e70671fb2"%string := [0] ]} in
  Forall (λ p : Z * Z, 0 ≤ p.2) [(10, 0); (8, 15); (5, 30)] ∧
  generate_hashes [(10, 0); (8, 15); (5, 30)] 15 10 200 true = Ok m ∧
  String.length "b692efed1b4e70671fb2" = FINGERPRINT_REDUCTION.
Proof.
  intros m.
  assert (Forall (λ p : Z * Z, 0 ≤ p.2) [(10, 0); (8, 15); (5, 30)]) as Hpos
    by (repeat constructor; simpl; lia).
  assert (generate_hashes [(10, 0); (8, 15); (5, 30)] 15 10 200 true = Ok m)
    as Hrun by (vm_compute; reflexivity).
  split; [exact Hpos|]. split; [exact Hrun|].
  refine (proj1 (keys_and_offsets_shape _ _ _ _ _ _ Hpos Hrun
                   "b692efed1b4e70671fb2"%string [0] _)).
  vm_compute; reflexivity.
Defined.

(* ===================================================================== *)
(** ** Shifting the time axis *)
(* ===================================================================== *)

Lemma getitem_fmap {A B} (f : A → B) (l : list A) (i : Z) :
  getitem (f <$> l) i = rmap f (getitem l i).
Proof.
  unfold getitem. rewrite length_fmap, list_lookup_fmap.
  case_match; [|done]. by destruct (l !! _).
Qed.

Lemma record_offset_shift (c : Z) (h : string) (t : Z) (d : gmap string (list Z)) :
  record_offset h (t + c) (shift_offsets c d)
    = shift_offsets c (record_offset h t d).
Proof.
  unfold record_offset, shift_offsets. rewrite lookup_fmap.
  destruct (d !! h) as [ts|]; simpl; rewrite fmap_insert; [|done].
  by rewrite fmap_app.
Qed.

Lemma arrange_shift (c : Z) (peak_sort : bool) (peaks : list (Z * Z)) :
  arrange peak_sort (shift_time c <$> peaks)
    = shift_time c <$> arrange peak_sort peaks.
Proof.
  destruct peak_sort; [|done]. apply sorted_fmap.
  intros [f1 t1] [f2 t2]. simpl.
  destruct (Z.leb_spec (t1 + c) (t2 + c)), (Z.leb_spec t1 t2); done || lia.
Qed.

Section Shift.
Variables (c : Z) (peaks : list (Z * Z)) (fan_value lo hi : Z).

Lemma third_peak_loop_shift i freq1 t1 freq2 t2 k d :
  third_peak_loop (shift_time c <$> peaks) lo hi i freq1 (t1 + c)
      freq2 (t2 + c) k (shift_offsets c d)
    = rmap (shift_offsets c)
        (third_peak_loop peaks lo hi i freq1 t1 freq2 t2 k d).
Proof.
  unfold third_peak_loop. rewrite length_fmap, getitem_fmap.
  case_match; [|done].
  destruct (getitem peaks (i + k)) as [[freq3 t3]|e]; [|done].
  run_bind. cbn [rmap shift_time fst snd].
  replace (t3 + c - (t1 + c)) with (t3 - t1) by lia.
  replace (t2 + c - (t1 + c)) with (t2 - t1) by lia.
  do 2 (case_match; [|done]).
  destruct (int_true_divide (t2 - t1) (t3 - t1)) as [ratio|e]; [|done].
  cbn [rmap]. by rewrite record_offset_shift.
Qed.

Lemma second_peak_loop_shift i freq1 t1 j d :
  second_peak_loop (shift_time c <$> peaks) fan_value lo hi i freq1 (t1 + c)
      j (shift_offsets c d)
    = rmap (shift_offsets c)
        (second_peak_loop peaks fan_value lo hi i freq1 t1 j d).
Proof.
  unfold second_peak_loop. rewrite length_fmap, getitem_fmap.
  case_match; [|done].
  destruct (getitem peaks (i + j)) as [[freq2 t2]|e]; [|done].
  run_bind. cbn [rmap shift_time fst snd].
  apply for_in_simulation. intros k u _. apply third_peak_loop_shift.
Qed.

Lemma anchor_loop_shift i d :
  anchor_loop (shift_time c <$> peaks) fan_value lo hi i (shift_offsets c d)
    = rmap (shift_offsets c) (anchor_loop peaks fan_value lo hi i d).
Proof.
  unfold anchor_loop. rewrite getitem_fmap.
  destruct (getitem peaks i) as [[freq1 t1]|e]; [|done].
  run_bind. cbn [rmap shift_time fst snd].
  apply for_in_simulation. intros j u _. apply second_peak_loop_shift.
Qed.
End Shift.

(** C6 (ratio invariance). Adding a constant [c] to the time index of every
    peak leaves the outcome unchanged up to the stored offsets: the same
    exception if any, otherwise a dictionary with the same keys in which
    every list is the original list with [c] added to each element. *)
Theorem time_shift_invariance (c : Z) (peaks : list (Z * Z))
    (fan_value min_hash_time_delta max_hash_time_delta : Z) (peak_sort : bool) :
  generate_hashes (shift_time c <$> peaks) fan_value min_hash_time_delta
      max_hash_time_delta peak_sort
    = rmap (shift_offsets c)
        (generate_hashes peaks fan_value min_hash_time_delta
           max_hash_time_delta peak_sort)
  ∧ ∀ m : gmap string (list Z),
      dom (shift_offsets c m) = dom m ∧
      ∀ h, shift_offsets c m !! h = fmap (M := list) (λ t, t + c) <$> m !! h.
Proof.
  split.
  - unfold generate_hashes. rewrite arrange_shift, length_fmap.
    change (∅ : gmap string (list Z)) with (shift_offsets c ∅) at 1.
    apply for_in_simulation. intros i d _. apply anchor_loop_shift.
  - intros m. unfold shift_offsets. split; [apply dom_fmap_L|].
    intros h. apply lookup_fmap.
Qed.

(* ===================================================================== *)
(** ** Division by zero and totality *)
(* ===================================================================== *)

Lemma insert_by_StronglySorted {A} (key : A → Z) (x : A) (l : list A) :
  StronglySorted (λ a b, key a ≤ key b) l →
  StronglySorted (λ a b, key a ≤ key b) (insert_by key x l).
Proof.
  induction 1 as [|y l Hl IH Hy]; simpl; [repeat constructor|].
  destruct (Z.leb_spec (key x) (key y)) as [Hxy|Hxy].
  - constructor; [by constructor|]. constructor; [done|].
    eapply Forall_impl; [exact Hy|]. simpl. lia.
  - constructor; [done|].
    rewrite (insert_by_Permutation key x l). constructor; [lia|done].
Qed.

Lemma sorted_StronglySorted {A} (key : A → Z) (l : list A) :
  StronglySorted (λ a b, key a ≤ key b) (sorted key l).
Proof.
  induction l as [|x l IH]; simpl; [constructor|].
  by apply insert_by_StronglySorted.
Qed.

Lemma sorted_time_ordered (peaks : list (Z * Z)) :
  time_ordered (sorted snd peaks).
Proof.
  unfold time_ordered. generalize (sorted_StronglySorted snd peaks).
  induction 1 as [|z l Hl IH Hz]; intros a b x y Hab Ha Hb; [done|].
  destruct a as [|a], b as [|b]; simpl in *; simplify_eq; try lia.
  - rewrite Forall_forall in Hz. apply Hz. by eapply list_elem_of_lookup_2.
  - apply (IH a b); [lia|done..].
Qed.

Lemma getitem_not_ZeroDivisionError {A} (l : list A) (i : Z) :
  getitem l i ≠ Raise ZeroDivisionError.
Proof. unfold getitem. repeat case_match; done. Qed.

Lemma int_true_divide_nonzero (a b : Z) :
  b ≠ 0 → int_true_divide a b ≠ Raise ZeroDivisionError.
Proof.
  intros Hb. unfold int_true_divide.
  destruct (Z.eqb_spec b 0); [done|]. repeat case_match; done.
Qed.

Lemma int_true_divide_zero (a : Z) : int_true_divide a 0 = Raise ZeroDivisionError.
Proof. done. Qed.

(** A quotient of positive integers that is at most 1, or whose dividend
    is below the overflow bound, is a float. *)
Lemma int_true_divide_total (a b : Z) :
  1 ≤ a → 1 ≤ b → a ≤ b ∨ a < float_overflow_bound →
  ∃ q, int_true_divide a b = Ok q.
Proof.
  intros Ha Hb Hab. unfold int_true_divide.
  destruct (Z.eqb_spec b 0); [lia|].
  assert (overflows a b = false) as ->.
  { unfold overflows. fold float_overflow_bound.
    assert (1 < float_overflow_bound) as HC by (by vm_compute).
    generalize dependent float_overflow_bound. intros C Hab HC.
    rewrite !Z.abs_eq by lia. apply Z.leb_gt. nia. }
  case_match; eauto.
Qed.

Section Totality.
Variables (peaks : list (Z * Z)) (fan_value lo hi : Z).
Hypothesis Hlo : 1 ≤ lo.

Lemma third_peak_loop_no_zero_division i freq1 t1 freq2 t2 k d :
  third_peak_loop peaks lo hi i freq1 t1 freq2 t2 k d
    ≠ Raise ZeroDivisionError.
Proof.
  unfold third_peak_loop. case_match; [|done].
  pose proof (getitem_not_ZeroDivisionError peaks (i + k)) as Hget.
  destruct (getitem peaks (i + k)) as [[freq3 t3]|e]; run_bind; [|congruence].
  cbn [fst snd].
  destruct (Z.leb_spec lo (t3 - t1)); [|by repeat case_match].
  cbn [andb]. case_match; [|done]. case_match; [|done].
  pose proof (int_true_divide_nonzero (t2 - t1) (t3 - t1)) as Hdiv.
  destruct (int_true_divide (t2 - t1) (t3 - t1)); [done|].
  intros [= ->]. apply Hdiv; [lia|done].
Qed.

Lemma anchor_loop_no_zero_division i d :
  anchor_loop peaks fan_value lo hi i d ≠ Raise ZeroDivisionError.
Proof.
  unfold anchor_loop.
  pose proof (getitem_not_ZeroDivisionError peaks i) as Hget.
  destruct (getitem peaks i) as [[freq1 t1]|e]; run_bind; [|congruence].
  apply for_in_never. intros j u _. unfold second_peak_loop.
  case_match; [|done].
  pose proof (getitem_not_ZeroDivisionError peaks (i + j)) as Hget2.
  destruct (getitem peaks (i + j)) as [[freq2 t2]|e]; run_bind; [|congruence].
  apply for_in_never. intros k v _. apply third_peak_loop_no_zero_division.
Qed.

Hypothesis Hbound :
  Forall (λ p : Z * Z, Z.abs p.2 < 2 ^ 1022) peaks ∨
  time_ordered peaks ∨ hi < float_overflow_bound.

Lemma anchor_loop_total i d :
  0 ≤ i < Z.of_nat (length peaks) →
  ∃ d', anchor_loop peaks fan_value lo hi i d = Ok d' ∧ True.
Proof.
  intros Hi. unfold anchor_loop.
  destruct (getitem_in_range peaks i) as ([freq1 t1] & -> & Hp1); [lia|].
  run_bind. cbn [fst snd]. apply for_in_total; [|done].
  intros j u [? ?]%elem_of_range _. unfold second_peak_loop.
  case_match; [|by eauto].
  destruct (getitem_in_range peaks (i + j)) as ([freq2 t2] & -> & Hp2); [lia|].
  run_bind. cbn [fst snd]. apply for_in_total; [|done].
  intros k v [? ?]%elem_of_range _. unfold third_peak_loop.
  case_match; [|by eauto].
  destruct (getitem_in_range peaks (i + k)) as ([freq3 t3] & -> & Hp3); [lia|].
  run_bind. cbn [fst snd].
  destruct (Z.leb_spec lo (t3 - t1)); [|by eauto].
  destruct (Z.leb_spec (t3 - t1) hi); [|by eauto].
  destruct (Z.leb_spec lo (t2 - t1)); [|by eauto].
  destruct (Z.leb_spec (t2 - t1) hi); [|by eauto].
  cbn [andb].
  destruct (int_true_divide_total (t2 - t1) (t3 - t1)) as [q ->];
    [lia|lia| |by eauto].
  destruct Hbound as [Hsmall|[Hord|Hhi]]; [right|left|right; lia].
  - rewrite Forall_forall in Hsmall.
    pose proof (Hsmall _ (list_elem_of_lookup_2 _ _ _ Hp1)) as Ht1.
    pose proof (Hsmall _ (list_elem_of_lookup_2 _ _ _ Hp2)) as Ht2.
    cbn [snd] in Ht1, Ht2.
    assert (2 ^ 1022 + 2 ^ 1022 ≤ float_overflow_bound) by (by vm_compute).
    lia.
  - pose proof (Hord (Z.to_nat (i + j)) (Z.to_nat (i + k)) _ _
                  ltac:(lia) Hp2 Hp3) as Hle.
    simpl in Hle. lia.
Qed.
End Totality.

Lemma range_cons (lo hi : Z) : lo < hi → range lo hi = lo :: range (lo + 1) hi.
Proof.
  intros Hlt. unfold range. rewrite seqZ_cons by lia.
  f_equal. f_equal; lia.
Qed.

(** Three peaks at the same time: the third one is at distance 0 from the
    anchor, so a window that contains 0 lets the division run with a zero
    divisor. *)
Lemma zero_divisor_reached (fan_value lo hi : Z) (peak_sort : bool) :
  lo ≤ 0 ≤ hi → 3 ≤ fan_value →
  generate_hashes [(0, 0); (0, 0); (0, 0)] fan_value lo hi peak_sort
    = Raise ZeroDivisionError.
Proof.
  intros Hwin Hfan. set (peaks := [(0, 0); (0, 0); (0, 0)]).
  assert (third_peak_loop peaks lo hi 0 0 0 0 0 2 ∅ = Raise ZeroDivisionError)
    as H3.
  { unfold third_peak_loop.
    change (0 + 2 <? Z.of_nat (length peaks)) with true.
    change (getitem peaks (0 + 2)) with (Ok (0, 0) : result (Z * Z)).
    run_bind. cbn [fst snd]. change (0 - 0) with 0.
    destruct (Z.leb_spec lo 0); [|lia]. destruct (Z.leb_spec 0 hi); [|lia].
    done. }
  assert (second_peak_loop peaks fan_value lo hi 0 0 0 1 ∅
            = Raise ZeroDivisionError) as H2.
  { unfold second_peak_loop.
    change (0 + 1 <? Z.of_nat (length peaks)) with true.
    change (getitem peaks (0 + 1)) with (Ok (0, 0) : result (Z * Z)).
    run_bind. cbn [fst snd]. change (1 + 1) with 2.
    rewrite (range_cons 2 fan_value) by lia. cbn [for_in]. by rewrite H3. }
  assert (anchor_loop peaks fan_value lo hi 0 ∅ = Raise ZeroDivisionError)
    as H1.
  { unfold anchor_loop.
    change (getitem peaks 0) with (Ok (0, 0) : result (Z * Z)).
    run_bind. cbn [fst snd].
    rewrite (range_cons 1 (fan_value - 1)) by lia. cbn [for_in].
    by rewrite H2. }
  unfold generate_hashes.
  replace (arrange peak_sort peaks) with peaks by (by destruct peak_sort).
  change (range 0 (Z.of_nat (length peaks))) with [0; 1; 2].
  cbn [for_in]. by rewrite H1.
Qed.

(** C10 (no division by zero). With [min_hash_time_delta >= 1] the
    division [(t2 - t1) / (t3 - t1)] is only reached with [t3 - t1 >= 1]:
    for every peak sequence [generate_hashes] never raises
    [ZeroDivisionError], and it returns a dictionary whenever the time
    indices are below 2^1022 in magnitude, as the indices of an array are
    (or the peaks are sorted, or the window ends below the largest float).
    With [min_hash_time_delta <= 0 <= max_hash_time_delta] and a fan value
    of at least 3, three simultaneous peaks pass the guards and reach the
    division with a zero divisor. *)
Theorem division_by_zero_unreachable (peaks : list (Z * Z))
    (fan_value min_hash_time_delta max_hash_time_delta : Z) (peak_sort : bool) :
  (1 ≤ min_hash_time_delta →
     generate_hashes peaks fan_value min_hash_time_delta max_hash_time_delta
       peak_sort ≠ Raise ZeroDivisionError ∧
     (Forall (λ p : Z * Z, Z.abs p.2 < 2 ^ 1022) peaks ∨
      peak_sort = true ∨ max_hash_time_delta < float_overflow_bound →
      ∃ m, generate_hashes peaks fan_value min_hash_time_delta
             max_hash_time_delta peak_sort = Ok m)) ∧
  (min_hash_time_delta ≤ 0 ≤ max_hash_time_delta → 3 ≤ fan_value →
     generate_hashes [(0, 0); (0, 0); (0, 0)] fan_value min_hash_time_delta
       max_hash_time_delta peak_sort = Raise ZeroDivisionError).
Proof.
  split; [|apply zero_divisor_reached]. intros Hlo. split.
  - unfold generate_hashes. apply for_in_never. intros i d _.
    by apply anchor_loop_no_zero_division.
  - intros Hbound. unfold generate_hashes.
    destruct (for_in_total (λ _, True)
                (range 0 (Z.of_nat (length (arrange peak_sort peaks))))
                (anchor_loop (arrange peak_sort peaks) fan_value
                   min_hash_time_delta max_hash_time_delta) ∅)
      as (m & Hm & _); [|done|by exists m].
    intros i d Hi%elem_of_range _. apply anchor_loop_total; [done| |done].
    destruct Hbound as [Hsmall|[->|Hhi]]; [left|right; left|by right; right].
    + unfold arrange. destruct peak_sort; [|done].
      by rewrite sorted_Permutation.
    + apply sorted_time_ordered.
Qed.

Lemma division_by_zero_unreachable_witness :
  1 ≤ 10 ∧
  generate_hashes [(10, 0); (8, 15); (5, 30)] 15 10 200 false
    ≠ Raise ZeroDivisionError ∧
  Forall (λ p : Z * Z, Z.abs p.2 < 2 ^ 1022) [(10, 0); (8, 15); (5, 30)] ∧
  (∃ m, generate_hashes [(10, 0); (8, 15); (5, 30)] 15 10 200 false = Ok m) ∧
  (0 ≤ 0 ≤ 200 ∧ 3 ≤ 15) ∧
  generate_hashes [(0, 0); (0, 0); (0, 0)] 15 0 200 false
    = Raise ZeroDivisionError.
Proof.
  assert (Forall (λ p : Z * Z, Z.abs p.2 < 2 ^ 1022)
            [(10, 0); (8, 15); (5, 30)]) as Hsmall
    by (repeat constructor).
  pose proof (proj1 (division_by_zero_unreachable
                       [(10, 0); (8, 15); (5, 30)] 15 10 200 false)
                ltac:(lia)) as [Hnever Htotal].
  split; [lia|]. split; [exact Hnever|]. split; [exact Hsmall|].
  split; [exact (Htotal (or_introl Hsmall))|]. split; [lia|].
  apply (proj2 (division_by_zero_unreachable [] 15 0 200 false)); lia.
Defined.

(* ===================================================================== *)
(** ** Arrays, masks and float comparisons *)
(* ===================================================================== *)

Lemma lookup2_tabulate {A B} (a : list (list A)) (f : Z → Z → A → B) (r c : Z) :
  lookup2 (tabulate a f) r c = f r c <$> lookup2 a r c.
Proof.
  unfold lookup2, tabulate.
  destruct (Z.ltb_spec r 0); [done|]. destruct (Z.ltb_spec c 0); [done|]. simpl.
  rewrite list_lookup_imap. destruct (a !! Z.to_nat r) as [row|]; simpl; [|done].
  rewrite list_lookup_imap. rewrite !Z2Nat.id by lia. done.
Qed.

Lemma lookup2_nonneg {A} (a : list (list A)) (r c : Z) (x : A) :
  lookup2 a r c = Some x → 0 ≤ r ∧ 0 ≤ c.
Proof.
  unfold lookup2.
  destruct (Z.ltb_spec r 0); [done|]. destruct (Z.ltb_spec c 0); [done|]. lia.
Qed.

(** Two arrays built cell by cell are equal when their cells are. *)
Lemma tabulate_ext {A B} (a : list (list A)) (f g : Z → Z → A → B) :
  (∀ r c x, 0 ≤ r → 0 ≤ c → f r c x = g r c x) → tabulate a f = tabulate a g.
Proof.
  intros Hfg. unfold tabulate. apply imap_ext. intros i row _.
  apply imap_ext. intros j x _. apply Hfg; lia.
Qed.

(** The true cells of a mask are the positions that hold [true]. *)
Lemma elem_of_true_cells (m : mask) (r c : Z) :
  (r, c) ∈ true_cells m → lookup2 m r c = Some true.
Proof.
  unfold true_cells. rewrite list_elem_of_In, in_concat.
  intros (cs & Hcs & Hin).
  apply list_elem_of_In in Hcs. apply list_elem_of_In in Hin.
  apply elem_of_lookup_imap_1 in Hcs as (i & row & -> & Hrow).
  apply list_elem_of_omap in Hin as (o & Ho & Hsome). simpl in Hsome. subst o.
  apply elem_of_lookup_imap_1 in Ho as (j & b & Hb & Hj).
  destruct b; [|done]. injection Hb as -> ->.
  unfold lookup2.
  destruct (Z.ltb_spec (Z.of_nat i) 0); [lia|].
  destruct (Z.ltb_spec (Z.of_nat j) 0); [lia|]. simpl.
  rewrite !Nat2Z.id, Hrow. simpl. done.
Qed.

Lemma zip3_fmap {A B C D} (f : A → B) (g : A → C) (h : A → D) (l : list A) :
  zip3 (f <$> l) (g <$> l) (h <$> l) = (λ x, (f x, g x, h x)) <$> l.
Proof. induction l as [|x l IH]; [done|]. rewrite !fmap_cons. simpl. by rewrite IH. Qed.

Lemma zip_fmap_diag {A B C} (f : A → B) (g : A → C) (l : list A) :
  zip (f <$> l) (g <$> l) = (λ x, (f x, g x)) <$> l.
Proof. induction l as [|x l IH]; [done|]. rewrite !fmap_cons. simpl. by rewrite IH. Qed.

Lemma peaks_filtered_eq (outside : Z → Z → spec_float) (arr2D : ndarray)
    (amp_min : spec_float) :
  peaks_filtered outside arr2D amp_min
    = filter (λ x, SFltb amp_min x.2 = true) (candidate_peaks outside arr2D).
Proof.
  unfold peaks_filtered, candidate_peaks, where_, select.
  fold (detected_peaks outside arr2D). by rewrite zip3_fmap.
Qed.

Lemma get_2D_peaks_eq (outside : Z → Z → spec_float) (arr2D : ndarray)
    (amp_min : spec_float) :
  get_2D_peaks outside arr2D amp_min
    = (λ x : Z * Z * spec_float, (x.1.2, x.1.1))
        <$> peaks_filtered outside arr2D amp_min.
Proof. unfold get_2D_peaks. apply zip_fmap_diag. Qed.

Lemma filter_candidates (arr2D : ndarray) (amp_min : spec_float)
    (l : list (Z * Z)) :
  (λ x : Z * Z * spec_float, (x.1.2, x.1.1))
    <$> filter (λ x : Z * Z * spec_float, SFltb amp_min x.2 = true)
          ((λ p : Z * Z, (p.2, p.1, cell arr2D p.1 p.2)) <$> l)
  = filter (λ p : Z * Z, SFltb amp_min (cell arr2D p.1 p.2) = true) l.
Proof.
  induction l as [|[r c] l IH]; [done|].
  rewrite fmap_cons, !filter_cons. cbn [fst snd].
  destruct (decide (SFltb amp_min (cell arr2D r c) = true)).
  - rewrite fmap_cons. cbn [fst snd]. by rewrite IH.
  - exact IH.
Qed.

(** [get_2D_peaks] keeps, of the detected cells, those above the floor. *)
Lemma get_2D_peaks_filter (outside : Z → Z → spec_float) (arr2D : ndarray)
    (amp_min : spec_float) :
  get_2D_peaks outside arr2D amp_min
    = filter (λ p : Z * Z, SFltb amp_min (cell arr2D p.1 p.2) = true)
        (true_cells (detected_peaks outside arr2D)).
Proof.
  rewrite get_2D_peaks_eq, peaks_filtered_eq. unfold candidate_peaks.
  apply filter_candidates.
Qed.

Lemma detected_peaks_unfold (outside : Z → Z → spec_float) (arr2D : ndarray) :
  detected_peaks outside arr2D
    = xor_mask
        (eq_array (maximum_filter outside arr2D peak_neighborhood) arr2D)
        (binary_erosion (eq_scalar arr2D fzero) peak_neighborhood true).
Proof. unfold detected_peaks, peak_neighborhood. reflexivity. Qed.

(** An emitted pair is a detected cell above the floor. *)
Lemma get_2D_peaks_detected (outside : Z → Z → spec_float) (arr2D : ndarray)
    (amp_min : spec_float) (freq time : Z) :
  (freq, time) ∈ get_2D_peaks outside arr2D amp_min →
  lookup2 (detected_peaks outside arr2D) freq time = Some true ∧
  ∃ amp, lookup2 arr2D freq time = Some amp ∧ SFltb amp_min amp = true.
Proof.
  rewrite get_2D_peaks_eq, peaks_filtered_eq. unfold candidate_peaks.
  intros ([[i j] amp] & [= -> ->] & [Hamp Hin]%list_elem_of_filter)%list_elem_of_fmap.
  apply list_elem_of_fmap in Hin as ([r c] & [= -> -> ->] & Hcell).
  apply elem_of_true_cells in Hcell. simpl in *. split; [done|].
  unfold detected_peaks, xor_mask, eq_array, maximum_filter in Hcell.
  rewrite !lookup2_tabulate in Hcell.
  apply fmap_Some in Hcell as (b & (v & (x & Hx & _)%fmap_Some & _)%fmap_Some & _).
  exists x. split; [done|]. unfold cell in Hamp. by rewrite Hx in Hamp.
Qed.

(** [x > a'] and [a <= a'] give [x > a], for all floats; a comparison with
    a NaN is false. *)
Lemma SFltb_SFleb_trans (a a' x : spec_float) :
  SFleb a a' = true → SFltb a' x = true → SFltb a x = true.
Proof.
  unfold SFleb, SFltb.
  destruct a as [sa|sa| |sa ma ea], a' as [sb|sb| |sb mb eb],
    x as [sx|sx| |sx mx ex]; simpl; try done;
    destruct sa; try done; destruct sb; try done; destruct sx; try done;
    rewrite ?Pos.compare_cont_spec; simpl;
    destruct (Z.compare_spec ea eb); simpl; try done;
    destruct (Z.compare_spec eb ex); simpl; try done;
    destruct (Z.compare_spec ea ex); simpl; try done; try lia;
    destruct (Pos.compare_spec ma mb); simpl; try done;
    destruct (Pos.compare_spec mb mx); simpl; try done;
    destruct (Pos.compare_spec ma mx); simpl; try done; lia.
Qed.

Lemma filter_sublist_mono {A} (P Q : A → Prop) `{!∀ x, Decision (P x)}
    `{!∀ x, Decision (Q x)} (l : list A) :
  (∀ x, P x → Q x) → filter P l `sublist_of` filter Q l.
Proof.
  intros HPQ. induction l as [|x l IH]; [done|].
  rewrite !filter_cons. destruct (decide (P x)) as [HP|HP].
  - rewrite decide_True by auto. by constructor.
  - destruct (decide (Q x)); [by constructor|done].
Qed.

Lemma is_zero_inv (x : spec_float) : is_zero x → ∃ s, x = S754_zero s.
Proof.
  unfold is_zero, SFeqb. destruct x as [s|s| |s m e]; simpl; try done; [by eauto|..];
    by destruct s.
Qed.

Lemma max_step_zero (res tmp : spec_float) :
  is_zero res → is_zero tmp → is_zero (max_step res tmp).
Proof. by intros [s ->]%is_zero_inv [s' ->]%is_zero_inv. Qed.

Lemma SFeqb_zero (x y : spec_float) : is_zero x → is_zero y → SFeqb x y = true.
Proof. by intros [s ->]%is_zero_inv [s' ->]%is_zero_inv. Qed.

(** A value above a non-negative floor is not zero. *)
Lemma above_floor_not_zero (floor x : spec_float) :
  SFleb fzero floor = true → SFltb floor x = true → SFeqb x fzero = false.
Proof. unfold fzero. float_cases. Qed.

(* ===================================================================== *)
(** ** The reads of the maximum filter *)
(* ===================================================================== *)

Lemma reflect_in_range (len cc : Z) : 0 ≤ cc < len → reflect len cc = cc.
Proof.
  intros Hcc. unfold reflect.
  destruct (Z.ltb_spec cc 0); [lia|]. by destruct (Z.leb_spec len cc); [lia|].
Qed.

Lemma reflect_offset (len i i' : Z) :
  0 ≤ i' < len → reflect len (i + (i' - i)) = i'.
Proof.
  intros Hi. replace (i + (i' - i)) with i' by lia. by apply reflect_in_range.
Qed.

Lemma read_cell (outside : Z → Z → spec_float) (arr2D : ndarray) (r c : Z) :
  0 ≤ r → 0 ≤ c → read outside arr2D r c = cell arr2D r c.
Proof.
  intros Hr Hc. unfold read.
  destruct (Z.ltb_spec r 0); [lia|]. by destruct (Z.ltb_spec c 0); [lia|].
Qed.

(** The extension never gives an index beyond the end of the axis. *)
Lemma reflect_lt (len cc : Z) : 0 < len → reflect len cc < len.
Proof.
  intros Hlen. unfold reflect. destruct (Z.ltb_spec cc 0) as [Hneg|Hpos].
  - destruct (Z.leb_spec len 1); [lia|]. cbv zeta.
    rewrite Z.quot_div_nonneg by lia.
    pose proof (Z.mod_pos_bound (- cc) (2 * len) ltac:(lia)) as Hmod.
    rewrite Z.mod_eq in Hmod by lia.
    destruct (Z.ltb_spec cc (- (2 * len)));
      match goal with |- context [?a <? ?b] => destruct (Z.ltb_spec a b) end;
      lia.
  - destruct (Z.leb_spec len cc); [|lia].
    destruct (Z.leb_spec len 1); [lia|]. cbv zeta.
    rewrite Z.quot_div_nonneg by lia.
    pose proof (Z.mod_pos_bound cc (2 * len) ltac:(lia)) as Hmod.
    rewrite Z.mod_eq in Hmod by lia.
    match goal with |- context [?a <=? ?b] => destruct (Z.leb_spec a b) end; lia.
Qed.

(** On an axis that is in bounds, the extension of an index that lies at
    most [PEAK_NEIGHBORHOOD_SIZE] below zero is an index of the axis. *)
Lemma reflect_nonneg (len cc : Z) :
  axis_in_bounds len → - PEAK_NEIGHBORHOOD_SIZE ≤ cc → 0 ≤ reflect len cc.
Proof.
  unfold axis_in_bounds, PEAK_NEIGHBORHOOD_SIZE, reflect. intros Hlen Hcc.
  destruct (Z.ltb_spec cc 0) as [Hneg|Hpos].
  - destruct (Z.leb_spec len 1); [done|]. cbv zeta.
    destruct (Z.ltb_spec cc (- (2 * len))).
    + assert ((- cc) ÷ (2 * len) = 1) as ->.
      { rewrite Z.quot_div_nonneg by lia. symmetry.
        apply (Z.div_unique _ _ _ (- cc - 2 * len)); lia. }
      match goal with |- context [?a <? ?b] => destruct (Z.ltb_spec a b) end;
        lia.
    + destruct (Z.ltb_spec cc (- len)); lia.
  - destruct (Z.leb_spec len cc); [|lia].
    destruct (Z.leb_spec len 1); [done|]. cbv zeta.
    rewrite Z.quot_div_nonneg by lia.
    pose proof (Z.mod_pos_bound cc (2 * len) ltac:(lia)) as Hmod.
    rewrite Z.mod_eq in Hmod by lia.
    match goal with |- context [?a <=? ?b] => destruct (Z.leb_spec a b) end; lia.
Qed.

(** The neighbourhood holds every offset at distance at most
    [PEAK_NEIGHBORHOOD_SIZE], rows and columns added, and no other. *)
Lemma elem_of_peak_offsets (dr dc : Z) :
  Z.abs dr + Z.abs dc ≤ PEAK_NEIGHBORHOOD_SIZE →
  (dr, dc) ∈ offsets peak_neighborhood.
Proof.
  unfold PEAK_NEIGHBORHOOD_SIZE, peak_neighborhood. intros Hd.
  rewrite (proj2 iterate_structure_diamond).
  apply list_elem_of_filter. split; [done|].
  apply list_elem_of_bind. exists dr. split; [|apply elem_of_range; lia].
  apply list_elem_of_bind. exists dc. split; [by left|apply elem_of_range; lia].
Qed.

Lemma peak_offsets_bounded (d : Z * Z) :
  d ∈ offsets peak_neighborhood →
  Z.abs d.1 + Z.abs d.2 ≤ PEAK_NEIGHBORHOOD_SIZE.
Proof.
  unfold PEAK_NEIGHBORHOOD_SIZE, peak_neighborhood.
  rewrite (proj2 iterate_structure_diamond).
  by intros [Hd _]%list_elem_of_filter.
Qed.

(** On a grid that is in bounds the filter reads cells of the grid. *)
Lemma read_in_bounds (outside : Z → Z → spec_float) (arr2D : ndarray)
    (r c : Z) (d : Z * Z) :
  reads_in_bounds arr2D → 0 ≤ r → 0 ≤ c →
  Z.abs d.1 + Z.abs d.2 ≤ PEAK_NEIGHBORHOOD_SIZE →
  read outside arr2D (reflect (nrows arr2D) (r + d.1))
    (reflect (ncols arr2D) (c + d.2))
  = cell arr2D (reflect (nrows arr2D) (r + d.1))
      (reflect (ncols arr2D) (c + d.2)).
Proof.
  intros [Hrows Hcols] Hr Hc Hd. unfold read.
  pose proof (reflect_nonneg _ (r + d.1) Hrows ltac:(lia)).
  pose proof (reflect_nonneg _ (c + d.2) Hcols ltac:(lia)).
  destruct (Z.ltb_spec (reflect (nrows arr2D) (r + d.1)) 0); [lia|].
  by destruct (Z.ltb_spec (reflect (ncols arr2D) (c + d.2)) 0); [lia|].
Qed.

Lemma running_max_ext {A} (value value' : A → spec_float) (ds : list A)
    (init : spec_float) :
  (∀ d, d ∈ ds → value d = value' d) →
  running_max value ds init = running_max value' ds init.
Proof.
  revert init. induction ds as [|d ds IH]; intros init Hv; [done|].
  change (running_max value ds (max_step init (value d))
            = running_max value' ds (max_step init (value' d))).
  rewrite (Hv d) by (by left). apply IH. intros d' Hd'. apply Hv. by right.
Qed.

(** On a grid that is in bounds the filter does not depend on what lies
    outside of the grid. *)
Lemma maximum_filter_in_bounds (outside outside' : Z → Z → spec_float)
    (arr2D : ndarray) :
  reads_in_bounds arr2D →
  maximum_filter outside arr2D peak_neighborhood
    = maximum_filter outside' arr2D peak_neighborhood.
Proof.
  intros Hin. unfold maximum_filter. apply tabulate_ext. intros r c x Hr Hc.
  pose proof peak_offsets_bounded as Hbounded.
  destruct (offsets peak_neighborhood) as [|d0 ds]; [done|].
  assert (∀ d, d ∈ d0 :: ds →
            read outside arr2D (reflect (nrows arr2D) (r + d.1))
              (reflect (ncols arr2D) (c + d.2))
            = read outside' arr2D (reflect (nrows arr2D) (r + d.1))
                (reflect (ncols arr2D) (c + d.2))) as Hread.
  { intros d Hd%Hbounded. by rewrite !read_in_bounds. }
  rewrite (Hread d0) by (by left).
  apply (running_max_ext
           (λ d, read outside arr2D (reflect (nrows arr2D) (r + d.1))
                   (reflect (ncols arr2D) (c + d.2)))
           (λ d, read outside' arr2D (reflect (nrows arr2D) (r + d.1))
                   (reflect (ncols arr2D) (c + d.2)))).
  intros d Hd. apply Hread. by right.
Qed.

Lemma get_2D_peaks_in_bounds (outside outside' : Z → Z → spec_float)
    (arr2D : ndarray) (amp_min : spec_float) :
  reads_in_bounds arr2D →
  get_2D_peaks outside arr2D amp_min = get_2D_peaks outside' arr2D amp_min.
Proof.
  intros Hin. rewrite !get_2D_peaks_filter, !detected_peaks_unfold.
  by rewrite (maximum_filter_in_bounds outside outside').
Qed.

(* ===================================================================== *)
(** ** Grids of zeros *)
(* ===================================================================== *)

Lemma running_max_zero {A} (value : A → spec_float) (ds : list A)
    (init : spec_float) :
  is_zero init → (∀ d, d ∈ ds → is_zero (value d)) →
  is_zero (running_max value ds init).
Proof.
  revert init. induction ds as [|d ds IH]; intros init Hinit Hv; [done|].
  change (is_zero (running_max value ds (max_step init (value d)))).
  apply IH.
  - apply max_step_zero; [done|]. apply Hv. by left.
  - intros d' Hd'. apply Hv. by right.
Qed.

Section ZeroGrid.
Variables (outside : Z → Z → spec_float) (arr2D : ndarray) (neighborhood : mask).
Hypothesis Hzero : Forall (Forall is_zero) arr2D.

Lemma zero_grid_lookup r c x : lookup2 arr2D r c = Some x → is_zero x.
Proof.
  unfold lookup2. case_match; [done|].
  intros (row & Hrow & Hx)%bind_Some. rewrite Forall_forall in Hzero.
  pose proof (Hzero row (list_elem_of_lookup_2 _ _ _ Hrow)) as Hr.
  rewrite Forall_forall in Hr. apply Hr. by eapply list_elem_of_lookup_2.
Qed.

Lemma zero_grid_cell r c : is_zero (cell arr2D r c).
Proof.
  unfold cell. destruct (lookup2 arr2D r c) eqn:Hx; simpl; [|done].
  by eapply zero_grid_lookup.
Qed.

(** The background covers the grid and its erosion does too. *)
Lemma zero_grid_background r c :
  mask_at (eq_scalar arr2D fzero) true r c = true.
Proof.
  unfold mask_at, eq_scalar. rewrite lookup2_tabulate.
  destruct (lookup2 arr2D r c) as [x|] eqn:Hx; simpl; [|done].
  by eapply zero_grid_lookup.
Qed.

Lemma zero_grid_eroded r c x :
  lookup2 arr2D r c = Some x →
  mask_at (binary_erosion (eq_scalar arr2D fzero) neighborhood true) false r c
    = true.
Proof.
  intros Hx. unfold mask_at, binary_erosion, eq_scalar at 1.
  rewrite !lookup2_tabulate, Hx. simpl.
  apply forallb_forall. intros d _. apply zero_grid_background.
Qed.

(** When the filter reads zeros only, every cell is a local maximum, and
    the two masks cancel. *)
Hypothesis Hread : ∀ r c d, 0 ≤ r → 0 ≤ c → d ∈ offsets neighborhood →
  is_zero (read outside arr2D (reflect (nrows arr2D) (r + d.1))
             (reflect (ncols arr2D) (c + d.2))).

Lemma zero_grid_local_max r c b :
  lookup2 (eq_array (maximum_filter outside arr2D neighborhood) arr2D) r c
    = Some b →
  b = true.
Proof.
  unfold eq_array, maximum_filter. rewrite !lookup2_tabulate.
  intros (v & (x & Hx & ->)%fmap_Some & ->)%fmap_Some.
  destruct (lookup2_nonneg _ _ _ _ Hx) as [Hr Hc].
  apply SFeqb_zero; [|apply zero_grid_cell].
  destruct (offsets neighborhood) as [|d0 ds] eqn:Hoff;
    [by eapply zero_grid_lookup|].
  apply (running_max_zero
           (λ d, read outside arr2D (reflect (nrows arr2D) (r + d.1))
                   (reflect (ncols arr2D) (c + d.2)))).
  - apply Hread; [done..|]. by left.
  - intros d Hd. apply Hread; [done..|]. by right.
Qed.

Lemma zero_grid_detected r c b :
  lookup2
    (xor_mask (eq_array (maximum_filter outside arr2D neighborhood) arr2D)
       (binary_erosion (eq_scalar arr2D fzero) neighborhood true)) r c
    = Some b →
  b = false.
Proof.
  unfold xor_mask. rewrite lookup2_tabulate.
  intros (b1 & Hb1 & ->)%fmap_Some.
  rewrite (zero_grid_local_max _ _ _ Hb1).
  unfold eq_array, maximum_filter in Hb1. rewrite !lookup2_tabulate in Hb1.
  apply fmap_Some in Hb1 as (v & (x & Hx & _)%fmap_Some & _).
  by rewrite (zero_grid_eroded _ _ _ Hx).
Qed.
End ZeroGrid.

(** A grid of zeros that is in bounds has no detected cell. *)
Lemma zero_grid_no_detected_cell (outside : Z → Z → spec_float)
    (arr2D : ndarray) :
  Forall (Forall is_zero) arr2D → reads_in_bounds arr2D →
  true_cells (detected_peaks outside arr2D) = [].
Proof.
  intros Hzero Hin. apply elem_of_nil_inv.
  intros [r c] Hcell%elem_of_true_cells.
  rewrite detected_peaks_unfold in Hcell.
  apply (zero_grid_detected outside arr2D peak_neighborhood Hzero) in Hcell;
    [done|].
  intros r' c' d Hr Hc Hd%peak_offsets_bounded.
  rewrite read_in_bounds by done. by apply zero_grid_cell.
Qed.

(** No cell of a grid of zeros is above a floor that is not negative. *)
Lemma zero_grid_below_floor (arr2D : ndarray) (amp_min : spec_float)
    (l : list (Z * Z)) :
  Forall (Forall is_zero) arr2D → SFleb fzero amp_min = true →
  filter (λ p : Z * Z, SFltb amp_min (cell arr2D p.1 p.2) = true) l = [].
Proof.
  intros Hzero Hfloor. apply elem_of_nil_inv.
  intros p [Habove _]%list_elem_of_filter.
  pose proof (zero_grid_cell arr2D Hzero p.1 p.2) as Hz. unfold is_zero in Hz.
  by rewrite (above_floor_not_zero _ _ Hfloor Habove) in Hz.
Qed.

(** A grid of zeros yields no peak when it is in bounds or the floor is not
    negative. *)
Lemma zero_grid_silent (outside : Z → Z → spec_float) (arr2D : ndarray)
    (amp_min : spec_float) :
  Forall (Forall is_zero) arr2D →
  SFleb fzero amp_min = true ∨ reads_in_bounds arr2D →
  get_2D_peaks outside arr2D amp_min = [].
Proof.
  intros Hzero [Hfloor|Hin]; rewrite get_2D_peaks_filter.
  - by apply zero_grid_below_floor.
  - by rewrite zero_grid_no_detected_cell.
Qed.

(* ===================================================================== *)
(** ** Properties of the peak extractor *)
(* ===================================================================== *)

(** C3, as the code behaves. [get_2D_peaks] returns pairs
    [(frequency index, time index)], without the amplitude; each pair is
    the position of a cell of the grid whose amplitude is strictly greater
    than [amp_min]. *)
Theorem peaks_exceed_amp_min (outside : Z → Z → spec_float) (arr2D : ndarray)
    (amp_min : spec_float) (freq time : Z) :
  (freq, time) ∈ get_2D_peaks outside arr2D amp_min →
  ∃ amp, lookup2 arr2D freq time = Some amp ∧ SFltb amp_min amp = true.
Proof.
  rewrite get_2D_peaks_eq, peaks_filtered_eq. unfold candidate_peaks.
  intros ([[i j] amp] & [= -> ->] & [Hamp Hin]%list_elem_of_filter)%list_elem_of_fmap.
  apply list_elem_of_fmap in Hin as ([r c] & [= -> -> ->] & Hcell).
  apply elem_of_true_cells in Hcell. simpl in *.
  unfold detected_peaks, xor_mask, eq_array, maximum_filter in Hcell.
  rewrite !lookup2_tabulate in Hcell.
  apply fmap_Some in Hcell as (b & (v & (x & Hx & _)%fmap_Some & _)%fmap_Some & _).
  exists x. split; [done|]. unfold cell in Hamp. by rewrite Hx in Hamp.
Qed.

Lemma peaks_exceed_amp_min_witness :
  (0, 0) ∈ get_2D_peaks (filled fzero) [[float_of_Z 70]] DEFAULT_AMP_MIN ∧
  ∃ amp, lookup2 [[float_of_Z 70]] 0 0 = Some amp ∧ SFltb DEFAULT_AMP_MIN amp = true.
Proof.
  assert ((0, 0) ∈ get_2D_peaks (filled fzero) [[float_of_Z 70]] DEFAULT_AMP_MIN)
    as Hin by (vm_compute; left).
  split; [exact Hin|].
  exact (peaks_exceed_amp_min _ _ _ _ _ Hin).
Defined.

(** C3, as stated, fails: for a grid with the single cell 70.0 and the
    floor 65.0, the triple built before the filter holds the amplitude but
    the value returned is the pair of indices; the grid with the single
    cell 80.0 returns the same value, which therefore carries no
    amplitude. *)
Lemma get_2D_peaks_returns_pairs :
  peaks_filtered (filled fzero) [[float_of_Z 70]] DEFAULT_AMP_MIN
    = [(0, 0, float_of_Z 70)] ∧
  get_2D_peaks (filled fzero) [[float_of_Z 70]] DEFAULT_AMP_MIN = [(0, 0)] ∧
  get_2D_peaks (filled fzero) [[float_of_Z 80]] DEFAULT_AMP_MIN
    = get_2D_peaks (filled fzero) [[float_of_Z 70]] DEFAULT_AMP_MIN.
Proof. split; [|split]; vm_compute; reflexivity. Qed.

(** C5, where the code departs from it. On the 2 x 2 grid of zeros the
    neighbourhood reaches 8 rows and 8 columns back from every cell, two
    periods of the reflection, and [maximum_filter] reads at the indices
    (-1, -1), in front of the array. When the float there is positive, 1.0
    here, no cell equals the maximum of its neighbourhood, the two masks no
    longer cancel, and with the floor -5.0 all four cells are returned;
    when the memory holds zeros none is. *)
Theorem zero_grid_with_peaks :
  let grid := [[fzero; fzero]; [fzero; fzero]] in
  let outside (r c : Z) :=
    if (r =? -1) && (c =? -1) then float_of_Z 1 else fzero in
  get_2D_peaks outside grid (float_of_Z (-5)) = [(0, 0); (0, 1); (1, 0); (1, 1)] ∧
  get_2D_peaks (filled fzero) grid (float_of_Z (-5)) = [].
Proof. split; vm_compute; reflexivity. Qed.

(** X17 (background suppression). A grid whose cells are all zero has no
    peak when the filter stays within the grid, whatever [amp_min] is:
    every cell is a local maximum and belongs to the eroded background, and
    the exclusive or of the two masks is false everywhere. On every grid of
    zeros there is no peak when [amp_min] is not negative. *)
Theorem zero_grid_has_no_peaks (outside : Z → Z → spec_float)
    (arr2D : ndarray) (amp_min : spec_float) :
  Forall (Forall (λ x, SFeqb x fzero = true)) arr2D →
  (reads_in_bounds arr2D →
     true_cells (detected_peaks outside arr2D) = [] ∧
     get_2D_peaks outside arr2D amp_min = []) ∧
  (SFleb fzero amp_min = true → get_2D_peaks outside arr2D amp_min = []).
Proof.
  intros Hzero. split.
  - intros Hin.
    pose proof (zero_grid_no_detected_cell outside arr2D Hzero Hin) as Hnone.
    split; [done|]. by rewrite get_2D_peaks_filter, Hnone.
  - intros Hfloor. rewrite get_2D_peaks_filter.
    by apply zero_grid_below_floor.
Qed.

Lemma zero_grid_has_no_peaks_witness :
  let grid := replicate 6 (fzero :: replicate 5 (S754_zero true)) in
  Forall (Forall (λ x, SFeqb x fzero = true)) grid ∧
  reads_in_bounds grid ∧
  get_2D_peaks (filled (float_of_Z 1)) grid (float_of_Z (-5)) = [] ∧
  SFleb fzero DEFAULT_AMP_MIN = true ∧
  get_2D_peaks (filled (float_of_Z 1)) [[fzero; fzero]; [fzero; fzero]]
    DEFAULT_AMP_MIN = [].
Proof.
  intros grid.
  assert (Forall (Forall (λ x, SFeqb x fzero = true)) grid) as Hzero
    by (repeat constructor).
  assert (reads_in_bounds grid) as Hin by (split; right; by vm_compute).
  assert (SFleb fzero DEFAULT_AMP_MIN = true) as Hfloor
    by (vm_compute; reflexivity).
  split; [exact Hzero|]. split; [exact Hin|]. split.
  - exact (proj2 (proj1 (zero_grid_has_no_peaks _ grid (float_of_Z (-5)) Hzero)
                    Hin)).
  - split; [exact Hfloor|].
    apply (zero_grid_has_no_peaks _ [[fzero; fzero]; [fzero; fzero]]);
      [repeat constructor|exact Hfloor].
Defined.

(** C7, where the code departs from it. On the 5 x 5 grid of 70.0 the
    neighbourhood reaches 20 rows back from the first row, two periods of
    the reflection, and [maximum_filter] reads at the row index -1. A call
    that finds 100.0 there, in front of the cell (0, 0), returns 24 peaks;
    a later call with a higher floor that finds nothing above 70.0
    returns 25. *)
Theorem raising_amp_min_adds_a_peak :
  let grid := replicate 5 (replicate 5 (float_of_Z 70)) in
  let outside (r c : Z) :=
    if (r =? -1) && (c =? 0) then float_of_Z 100 else fzero in
  SFleb (float_of_Z 65) (float_of_Z 66) = true ∧
  length (get_2D_peaks outside grid (float_of_Z 65)) = 24%nat ∧
  length (get_2D_peaks (filled fzero) grid (float_of_Z 66)) = 25%nat.
Proof. split; [|split]; vm_compute; reflexivity. Qed.

(** X18 (threshold monotonicity). For floors [a <= a'], the peaks
    extracted with the floor [a'] are a sublist of those extracted with the
    floor [a], so there are at most as many: between two calls that read
    the same values, and between any two calls on a grid on which the
    filter stays within the grid. *)
Theorem raising_amp_min_removes_peaks (outside outside' : Z → Z → spec_float)
    (arr2D : ndarray) (a a' : spec_float) :
  SFleb a a' = true →
  outside' = outside ∨ reads_in_bounds arr2D →
  get_2D_peaks outside' arr2D a' `sublist_of` get_2D_peaks outside arr2D a ∧
  (length (get_2D_peaks outside' arr2D a')
   ≤ length (get_2D_peaks outside arr2D a))%nat.
Proof.
  intros Hle Hsame.
  assert (get_2D_peaks outside' arr2D a' = get_2D_peaks outside arr2D a') as ->.
  { destruct Hsame as [->|Hin]; [done|by apply get_2D_peaks_in_bounds]. }
  assert (get_2D_peaks outside arr2D a' `sublist_of` get_2D_peaks outside arr2D a)
    as Hsub.
  { rewrite !get_2D_peaks_eq, !peaks_filtered_eq.
    apply fmap_sublist, filter_sublist_mono.
    intros x. by apply SFltb_SFleb_trans. }
  split; [done|]. by apply sublist_length.
Qed.

Lemma raising_amp_min_removes_peaks_witness :
  let grid := replicate 6 (replicate 6 (float_of_Z 70)) in
  SFleb (float_of_Z 65) (float_of_Z 75) = true ∧
  reads_in_bounds grid ∧
  (length (get_2D_peaks (filled (float_of_Z 100)) grid (float_of_Z 75))
   ≤ length (get_2D_peaks (filled fzero) grid (float_of_Z 65)))%nat.
Proof.
  intros grid.
  assert (SFleb (float_of_Z 65) (float_of_Z 75) = true) as Hle
    by (vm_compute; reflexivity).
  assert (reads_in_bounds grid) as Hin by (split; right; by vm_compute).
  split; [exact Hle|]. split; [exact Hin|].
  exact (proj2 (raising_amp_min_removes_peaks _ _ grid _ _ Hle (or_intror Hin))).
Defined.

(* ===================================================================== *)
(** ** Determinism of the calls *)
(* ===================================================================== *)

(** With the arithmetic of Python integers the loops are those of
    [generate_hashes]. *)
Lemma generate_hashes_on_python_int peaks fan_value lo hi peak_sort :
  generate_hashes_on python_int peaks fan_value lo hi peak_sort
    = generate_hashes peaks fan_value lo hi peak_sort.
Proof. reflexivity. Qed.

Lemma generate_hashes_on_nil num fan_value lo hi peak_sort :
  generate_hashes_on num [] fan_value lo hi peak_sort = Ok ∅.
Proof. by destruct peak_sort. Qed.



(** A drained iterator yields nothing the second time. *)
Lemma zip_iterator_is_drained items σ :
  let '(it, σ1) := new_zip items σ in
  let '(first, σ2) := list_of it σ1 in
  let '(second, _) := list_of it σ2 in
  first = items ∧ second = [].
Proof.
  unfold new_zip, list_of. rewrite list_lookup_middle by done. split; [done|].
  rewrite list_lookup_insert_eq; [done|]. rewrite length_app. simpl. lia.
Qed.




(* ===================================================================== *)
(** ** Further properties of the hash generator *)
(* ===================================================================== *)

Lemma arrange_Permutation (peak_sort : bool) (peaks : list (Z * Z)) :
  arrange peak_sort peaks ≡ₚ peaks.
Proof. destruct peak_sort; [apply sorted_Permutation|done]. Qed.

Lemma length_arrange (peak_sort : bool) (peaks : list (Z * Z)) :
  length (arrange peak_sort peaks) = length peaks.
Proof. by rewrite arrange_Permutation. Qed.

Lemma getitem_not_IndexError {A} (l : list A) (i : Z) :
  0 ≤ i < Z.of_nat (length l) → getitem l i ≠ Raise IndexError.
Proof. intros Hi. by destruct (getitem_in_range l i Hi) as (x & -> & _). Qed.

Lemma int_true_divide_not_IndexError (a b : Z) :
  int_true_divide a b ≠ Raise IndexError.
Proof. unfold int_true_divide. repeat case_match; done. Qed.

Lemma anchor_loop_no_index_error peaks fan_value lo hi i d :
  0 ≤ i < Z.of_nat (length peaks) →
  anchor_loop peaks fan_value lo hi i d ≠ Raise IndexError.
Proof.
  intros Hi. unfold anchor_loop.
  destruct (getitem_in_range peaks i) as ([freq1 t1] & -> & _); [lia|].
  run_bind. apply for_in_never. intros j u [? ?]%elem_of_range.
  unfold second_peak_loop. case_match; [|done].
  destruct (getitem_in_range peaks (i + j)) as ([freq2 t2] & -> & _); [lia|].
  run_bind. apply for_in_never. intros k v [? ?]%elem_of_range.
  unfold third_peak_loop. case_match; [|done].
  destruct (getitem_in_range peaks (i + k)) as ([freq3 t3] & -> & _); [lia|].
  run_bind. cbn [fst snd].
  pose proof (int_true_divide_not_IndexError (t2 - t1) (t3 - t1)).
  destruct (int_true_divide (t2 - t1) (t3 - t1));
    repeat case_match; done || congruence.
Qed.

(** X1 (index guards). Whatever the peaks and the parameters are,
    [generate_hashes] never raises [IndexError]: the tests
    [i + j < len(peaks)] and [i + k < len(peaks)] keep every index in range.
    The call returns a dictionary or raises [ZeroDivisionError] or
    [OverflowError]. *)
Theorem generate_hashes_never_index_error (peaks : list (Z * Z))
    (fan_value min_hash_time_delta max_hash_time_delta : Z) (peak_sort : bool) :
  generate_hashes peaks fan_value min_hash_time_delta max_hash_time_delta
    peak_sort ≠ Raise IndexError ∧
  ((∃ m, generate_hashes peaks fan_value min_hash_time_delta
           max_hash_time_delta peak_sort = Ok m) ∨
   generate_hashes peaks fan_value min_hash_time_delta max_hash_time_delta
     peak_sort = Raise ZeroDivisionError ∨
   generate_hashes peaks fan_value min_hash_time_delta max_hash_time_delta
     peak_sort = Raise OverflowError).
Proof.
  assert (generate_hashes peaks fan_value min_hash_time_delta
            max_hash_time_delta peak_sort ≠ Raise IndexError) as Hno.
  { unfold generate_hashes. apply for_in_never.
    intros i d Hi%elem_of_range. by apply anchor_loop_no_index_error. }
  split; [done|].
  destruct (generate_hashes peaks fan_value min_hash_time_delta
              max_hash_time_delta peak_sort) as [m|[]]; eauto. done.
Qed.

(** X2 (too few peaks, too small a fan). With fewer than three peaks, or a
    fan value of at most 2, there is no triple to hash: the dictionary is
    empty and nothing is raised, whatever the window is. *)
Theorem too_few_peaks_yield_empty_map (peaks : list (Z * Z))
    (fan_value min_hash_time_delta max_hash_time_delta : Z) (peak_sort : bool) :
  (length peaks < 3)%nat ∨ fan_value ≤ 2 →
  generate_hashes peaks fan_value min_hash_time_delta max_hash_time_delta
    peak_sort = Ok ∅.
Proof.
  intros Hfew. unfold generate_hashes. apply for_in_skip.
  intros i d Hi%elem_of_range. unfold anchor_loop.
  destruct (getitem_in_range (arrange peak_sort peaks) i) as ([freq1 t1] & -> & _);
    [lia|].
  run_bind. apply for_in_skip. intros j u Hj%elem_of_range.
  unfold second_peak_loop. case_match; [|done].
  destruct (getitem_in_range (arrange peak_sort peaks) (i + j))
    as ([freq2 t2] & -> & _); [lia|].
  run_bind. apply for_in_skip. intros k v Hk%elem_of_range.
  unfold third_peak_loop.
  destruct (Z.ltb_spec (i + k) (Z.of_nat (length (arrange peak_sort peaks))))
    as [Hlen|]; [|done].
  rewrite length_arrange in Hi, Hlen. lia.
Qed.

Lemma too_few_peaks_yield_empty_map_witness :
  ((length (A := Z * Z) [(10%Z, 0%Z); (8%Z, 15%Z)] < 3)%nat ∨ 15 ≤ 2) ∧
  generate_hashes [(10, 0); (8, 15)] 15 10 200 true = Ok ∅.
Proof.
  assert ((length (A := Z * Z) [(10%Z, 0%Z); (8%Z, 15%Z)] < 3)%nat ∨ 15 ≤ 2) as Hfew
    by (left; simpl; lia).
  split; [exact Hfew|].
  exact (too_few_peaks_yield_empty_map _ 15 10 200 true Hfew).
Defined.

Lemma for_in_ext {A S} (xs : list A) (body1 body2 : A → S → result S) (s : S) :
  (∀ x t, x ∈ xs → body1 x t = body2 x t) →
  for_in xs body1 s = for_in xs body2 s.
Proof.
  revert s. induction xs as [|x xs IH]; intros s Hext; simpl; [done|].
  rewrite Hext by (by left). destruct (body2 x s); [|done].
  apply IH. intros y u Hy. apply Hext. by right.
Qed.

Lemma feature_string_shift (c freq1 freq2 freq3 : Z) (ratio : spec_float) :
  feature_string (freq1 + c) (freq2 + c) (freq3 + c) ratio
    = feature_string freq1 freq2 freq3 ratio.
Proof.
  unfold feature_string.
  replace (freq1 + c - (freq2 + c)) with (freq1 - freq2) by lia.
  by replace (freq2 + c - (freq3 + c)) with (freq2 - freq3) by lia.
Qed.

Lemma arrange_shift_freq (c : Z) (peak_sort : bool) (peaks : list (Z * Z)) :
  arrange peak_sort (shift_freq c <$> peaks)
    = shift_freq c <$> arrange peak_sort peaks.
Proof. destruct peak_sort; [|done]. apply sorted_fmap. by intros [f1 t1] [f2 t2]. Qed.

Lemma anchor_loop_shift_freq c peaks fan_value lo hi i d :
  anchor_loop (shift_freq c <$> peaks) fan_value lo hi i d
    = anchor_loop peaks fan_value lo hi i d.
Proof.
  unfold anchor_loop. rewrite getitem_fmap.
  destruct (getitem peaks i) as [[freq1 t1]|e]; [|done].
  run_bind. cbn [rmap shift_freq fst snd].
  apply for_in_ext. intros j u _. unfold second_peak_loop.
  rewrite length_fmap, getitem_fmap. case_match; [|done].
  destruct (getitem peaks (i + j)) as [[freq2 t2]|e]; [|done].
  run_bind. cbn [rmap shift_freq fst snd].
  apply for_in_ext. intros k v _. unfold third_peak_loop.
  rewrite length_fmap, getitem_fmap. case_match; [|done].
  destruct (getitem peaks (i + k)) as [[freq3 t3]|e]; [|done].
  run_bind. cbn [rmap shift_freq fst snd].
  unfold fingerprint_hash.
  destruct (int_true_divide (t2 - t1) (t3 - t1)) as [ratio|e];
    by rewrite ?feature_string_shift.
Qed.

(** X3 (frequency-shift invariance). Adding a constant to the frequency
    index of every peak changes nothing: only the differences
    [freq1 - freq2] and [freq2 - freq3] enter the hashed string, and the
    frequencies play no part in the order of the peaks or in the window
    tests. The outcome, dictionary or exception, is the same. *)
Theorem frequency_shift_invariance (c : Z) (peaks : list (Z * Z))
    (fan_value min_hash_time_delta max_hash_time_delta : Z) (peak_sort : bool) :
  generate_hashes (shift_freq c <$> peaks) fan_value min_hash_time_delta
      max_hash_time_delta peak_sort
    = generate_hashes peaks fan_value min_hash_time_delta
        max_hash_time_delta peak_sort.
Proof.
  unfold generate_hashes. rewrite arrange_shift_freq, length_fmap.
  apply for_in_ext. intros i d _. apply anchor_loop_shift_freq.
Qed.

Lemma time_ordered_StronglySorted (peaks : list (Z * Z)) :
  time_ordered peaks → StronglySorted (λ a b : Z * Z, a.2 ≤ b.2) peaks.
Proof.
  induction peaks as [|x l IH]; intros Hord; constructor.
  - apply IH. intros a b y z Hab Ha Hb. by apply (Hord (S a) (S b) y z); [lia|..].
  - apply Forall_forall. intros y [n Hn]%list_elem_of_lookup_1.
    by apply (Hord 0%nat (S n) x y); [lia|..].
Qed.

(** Sorting an ordered list returns it. *)
Lemma sorted_of_StronglySorted {A} (key : A → Z) (l : list A) :
  StronglySorted (λ a b, key a ≤ key b) l → sorted key l = l.
Proof.
  induction 1 as [|x l Hl IH Hx]; simpl; [done|]. rewrite IH.
  destruct Hx as [|y l' Hxy _]; simpl; [done|].
  by destruct (Z.leb_spec (key x) (key y)); [|lia].
Qed.

(** X4 (sorting ordered peaks). On peaks that already come in ascending
    order of time (as from a time-major scan), the flag [peak_sort] makes
    no difference: the stable sort leaves the list as it is. *)
Theorem peak_sort_of_ordered_peaks (peaks : list (Z * Z))
    (fan_value min_hash_time_delta max_hash_time_delta : Z) :
  time_ordered peaks →
  arrange true peaks = peaks ∧
  generate_hashes peaks fan_value min_hash_time_delta max_hash_time_delta true
    = generate_hashes peaks fan_value min_hash_time_delta max_hash_time_delta
        false.
Proof.
  intros Hord.
  assert (arrange true peaks = peaks) as Hsame
    by (by apply sorted_of_StronglySorted, time_ordered_StronglySorted).
  split; [done|]. unfold generate_hashes. by rewrite Hsame.
Qed.

Lemma time_ordered_lookup_3 (x y z : Z * Z) :
  x.2 ≤ y.2 → y.2 ≤ z.2 → time_ordered [x; y; z].
Proof.
  intros Hxy Hyz a b u v Hab Ha Hb.
  destruct a as [|[|[|a]]], b as [|[|[|b]]]; simpl in *; simplify_eq; lia.
Qed.

Lemma peak_sort_of_ordered_peaks_witness :
  time_ordered [(10, 0); (8, 15); (5, 30)] ∧
  generate_hashes [(10, 0); (8, 15); (5, 30)] 15 10 200 true
    = generate_hashes [(10, 0); (8, 15); (5, 30)] 15 10 200 false.
Proof.
  assert (time_ordered [(10, 0); (8, 15); (5, 30)]) as Hord
    by (apply time_ordered_lookup_3; simpl; lia).
  split; [exact Hord|].
  exact (proj2 (peak_sort_of_ordered_peaks _ 15 10 200 Hord)).
Defined.

(** Two ordered lists with the same elements and pairwise distinct keys are
    equal. *)
Lemma StronglySorted_unique {A} (key : A → Z) (l1 l2 : list A) :
  StronglySorted (λ a b, key a ≤ key b) l1 →
  StronglySorted (λ a b, key a ≤ key b) l2 →
  l1 ≡ₚ l2 → NoDup (key <$> l1) → l1 = l2.
Proof.
  intros H1. revert l2.
  induction H1 as [|x l1 Hl1 IH Hx]; intros l2 H2 Hperm Hnd.
  - by apply Permutation_nil_l in Hperm.
  - destruct H2 as [|y l2 Hl2 Hy].
    { by apply Permutation_nil_r in Hperm. }
    rewrite Forall_forall in Hx, Hy.
    assert (x = y) as ->.
    { assert (x ∈ y :: l2) as Hin1 by (rewrite <- Hperm; left).
      assert (y ∈ x :: l1) as Hin2 by (rewrite Hperm; left).
      apply elem_of_cons in Hin1 as [?|Hin1]; [done|].
      apply elem_of_cons in Hin2 as [?|Hin2]; [done|].
      pose proof (Hx _ Hin2). pose proof (Hy _ Hin1).
      rewrite fmap_cons in Hnd. apply NoDup_cons in Hnd as [Hnotin _].
      destruct Hnotin. replace (key x) with (key y) by lia.
      by apply list_elem_of_fmap_2. }
    f_equal. apply IH; [done|by eapply Permutation_cons_inv|].
    rewrite fmap_cons in Hnd. by apply NoDup_cons in Hnd as [_ ?].
Qed.

(** X5 (input order under sorting). With [peak_sort] set and peaks at
    pairwise distinct times, the order in which the peaks are given does
    not matter: two permutations of the same peaks give the same outcome. *)
Theorem peak_sort_forgets_input_order (peaks peaks' : list (Z * Z))
    (fan_value min_hash_time_delta max_hash_time_delta : Z) :
  peaks ≡ₚ peaks' → NoDup (snd <$> peaks) →
  generate_hashes peaks fan_value min_hash_time_delta max_hash_time_delta true
    = generate_hashes peaks' fan_value min_hash_time_delta max_hash_time_delta
        true.
Proof.
  intros Hperm Hnd.
  assert (arrange true peaks = arrange true peaks') as Hsame.
  { apply (StronglySorted_unique snd); try apply sorted_StronglySorted.
    - by rewrite !arrange_Permutation.
    - by rewrite (arrange_Permutation true peaks). }
  unfold generate_hashes. by rewrite Hsame.
Qed.

Lemma peak_sort_forgets_input_order_witness :
  [(10, 0); (8, 15); (5, 30)] ≡ₚ [(5, 30); (10, 0); (8, 15)] ∧
  NoDup (snd <$> [(10, 0); (8, 15); (5, 30)]) ∧
  generate_hashes [(10, 0); (8, 15); (5, 30)] 15 10 200 true
    = generate_hashes [(5, 30); (10, 0); (8, 15)] 15 10 200 true.
Proof.
  assert ([(10, 0); (8, 15); (5, 30)] ≡ₚ [(5, 30); (10, 0); (8, 15)]) as Hperm.
  { change [(5, 30); (10, 0); (8, 15)] with ([(5, 30)] ++ [(10, 0); (8, 15)]).
    change [(10, 0); (8, 15); (5, 30)] with ([(10, 0); (8, 15)] ++ [(5, 30)]).
    apply Permutation_app_comm. }
  assert (NoDup (snd <$> [(10, 0); (8, 15); (5, 30)])) as Hnd.
  { apply (bool_decide_unpack _). vm_compute. exact I. }
  split; [exact Hperm|]. split; [exact Hnd|].
  exact (peak_sort_forgets_input_order _ _ 15 10 200 Hperm Hnd).
Defined.

(** *** What is stored, exactly *)

(** After the iteration of [x], a property that the iteration of [x]
    establishes and that every iteration preserves holds at the end. *)
Lemma for_in_reaches {A S} (Q : S → Prop) (xs : list A)
    (body : A → S → result S) (s s' : S) (x : A) :
  x ∈ xs → for_in xs body s = Ok s' →
  (∀ y u u', y ∈ xs → body y u = Ok u' → Q u → Q u') →
  (∀ u u', body x u = Ok u' → Q u') →
  Q s'.
Proof.
  revert s. induction xs as [|y xs IH]; intros s Hin Hrun Hkeep Hx.
  { by apply elem_of_nil in Hin. }
  simpl in Hrun. destruct (body y s) as [t|e] eqn:Hb; [|done].
  assert (∀ z u u', z ∈ xs → body z u = Ok u' → Q u → Q u') as Hkeep'
    by (intros z u u' Hz; apply Hkeep; by right).
  apply elem_of_cons in Hin as [->|Hin].
  - eapply (for_in_invariant Q); [|by eapply Hx|done].
    intros z u u' Hz Hu Hbz. by eapply Hkeep'.
  - by apply (IH t).
Qed.

Lemma record_offset_stored_new (h : string) (t : Z) (d : gmap string (list Z)) :
  stored (record_offset h t d) h t.
Proof.
  eexists. rewrite record_offset_lookup, decide_True by done.
  split; [done|]. apply elem_of_app. right. by left.
Qed.

Lemma record_offset_stored_old (h' h : string) (t' t : Z)
    (d : gmap string (list Z)) :
  stored d h t → stored (record_offset h' t' d) h t.
Proof.
  intros (ts & Hts & Ht). unfold stored. rewrite record_offset_lookup.
  case_decide as Hh; [|by eauto]. subst h'. rewrite Hts. simpl.
  eexists. split; [done|]. apply elem_of_app. by left.
Qed.

Section Stored.
Variables (peaks : list (Z * Z)) (fan_value lo hi : Z).
Variables (h : string) (t : Z).

Lemma third_peak_loop_keeps_stored i freq1 t1 freq2 t2 k d d' :
  third_peak_loop peaks lo hi i freq1 t1 freq2 t2 k d = Ok d' →
  stored d h t → stored d' h t.
Proof.
  unfold third_peak_loop. intros Hrun Hd.
  destruct (i + k <? Z.of_nat (length peaks)); [|by injection Hrun as <-].
  destruct (getitem peaks (i + k)) as [[freq3 t3]|e]; [|done].
  revert Hrun. run_bind. cbn [fst snd].
  destruct ((lo <=? t3 - t1) && (t3 - t1 <=? hi)); [|by intros [= <-]].
  destruct ((lo <=? t2 - t1) && (t2 - t1 <=? hi)); [|by intros [= <-]].
  destruct (int_true_divide (t2 - t1) (t3 - t1)) as [ratio|e]; [|done].
  intros [= <-]. by apply record_offset_stored_old.
Qed.

Lemma second_peak_loop_keeps_stored i freq1 t1 j d d' :
  second_peak_loop peaks fan_value lo hi i freq1 t1 j d = Ok d' →
  stored d h t → stored d' h t.
Proof.
  unfold second_peak_loop. intros Hrun Hd.
  destruct (i + j <? Z.of_nat (length peaks)); [|by injection Hrun as <-].
  destruct (getitem peaks (i + j)) as [[freq2 t2]|e]; [|done].
  revert Hrun. run_bind. cbn [fst snd].
  apply (for_in_invariant (λ u, stored u h t)); [|done].
  intros k u u' _ Hu Hk. by eapply third_peak_loop_keeps_stored.
Qed.

Lemma anchor_loop_keeps_stored i d d' :
  anchor_loop peaks fan_value lo hi i d = Ok d' →
  stored d h t → stored d' h t.
Proof.
  unfold anchor_loop. intros Hrun Hd.
  destruct (getitem peaks i) as [[freq1 t1]|e]; [|done].
  revert Hrun. run_bind. cbn [fst snd].
  apply (for_in_invariant (λ u, stored u h t)); [|done].
  intros j u u' _ Hu Hj. by eapply second_peak_loop_keeps_stored.
Qed.

(** The iteration of a triple inside the window stores its offset. *)
Lemma anchor_loop_stores i j k freq1 t1 freq2 t2 freq3 t3 ratio d d' :
  0 ≤ i → 1 ≤ j → j < k → k < fan_value →
  peaks !! Z.to_nat i = Some (freq1, t1) →
  peaks !! Z.to_nat (i + j) = Some (freq2, t2) →
  peaks !! Z.to_nat (i + k) = Some (freq3, t3) →
  lo ≤ t3 - t1 ≤ hi → lo ≤ t2 - t1 ≤ hi →
  int_true_divide (t2 - t1) (t3 - t1) = Ok ratio →
  h = fingerprint_hash freq1 freq2 freq3 ratio → t = t1 →
  anchor_loop peaks fan_value lo hi i d = Ok d' → stored d' h t.
Proof.
  intros Hi Hj Hjk Hk H1 H2 H3 Hw3 Hw2 Hdiv Hh Ht.
  pose proof (lookup_lt_Some _ _ _ H1). pose proof (lookup_lt_Some _ _ _ H2).
  pose proof (lookup_lt_Some _ _ _ H3).
  unfold anchor_loop.
  destruct (getitem_in_range peaks i) as (p1 & -> & H1'); [lia|].
  rewrite H1 in H1'. injection H1' as <-. run_bind. cbn [fst snd].
  intros Hrun.
  apply (for_in_reaches (λ u, stored u h t) _ _ _ _ j) in Hrun; [done| | |].
  { apply elem_of_range. lia. }
  { intros y u u' _ Hy Hu. by eapply second_peak_loop_keeps_stored. }
  clear Hrun. intros u u'. unfold second_peak_loop.
  destruct (Z.ltb_spec (i + j) (Z.of_nat (length peaks))); [|lia].
  destruct (getitem_in_range peaks (i + j)) as (p2 & -> & H2'); [lia|].
  rewrite H2 in H2'. injection H2' as <-. run_bind. cbn [fst snd].
  intros Hrun.
  apply (for_in_reaches (λ u, stored u h t) _ _ _ _ k) in Hrun; [done| | |].
  { apply elem_of_range. lia. }
  { intros y v v' _ Hy Hv. by eapply third_peak_loop_keeps_stored. }
  clear Hrun. intros v v'. unfold third_peak_loop.
  destruct (Z.ltb_spec (i + k) (Z.of_nat (length peaks))); [|lia].
  destruct (getitem_in_range peaks (i + k)) as (p3 & -> & H3'); [lia|].
  rewrite H3 in H3'. injection H3' as <-. run_bind. cbn [fst snd].
  destruct (Z.leb_spec lo (t3 - t1)); [|lia].
  destruct (Z.leb_spec (t3 - t1) hi); [|lia].
  destruct (Z.leb_spec lo (t2 - t1)); [|lia].
  destruct (Z.leb_spec (t2 - t1) hi); [|lia].
  cbn [andb]. rewrite Hdiv. intros [= <-]. subst h t.
  apply record_offset_stored_new.
Qed.
End Stored.

(** Every triple inside the window leaves its offset in the dictionary. *)
Lemma generate_hashes_complete peaks fan_value lo hi peak_sort m h t :
  generate_hashes peaks fan_value lo hi peak_sort = Ok m →
  contribution (arrange peak_sort peaks) fan_value lo hi (h, t) →
  stored m h t.
Proof.
  intros Hrun (i & j & k & freq1 & t1 & freq2 & t2 & freq3 & t3 & ratio & Hc).
  destruct Hc as (Hi & Hj & Hjk & Hk & H1 & H2 & H3 & Hw3 & Hw2 & Hdiv & Hht).
  injection Hht as -> ->. pose proof (lookup_lt_Some _ _ _ H1).
  unfold generate_hashes in Hrun.
  apply (for_in_reaches
           (λ u, stored u (fingerprint_hash freq1 freq2 freq3 ratio) t1)
           _ _ _ _ i) in Hrun; [done| | |].
  - apply elem_of_range. lia.
  - intros y u u' _ Hy Hu. by eapply anchor_loop_keeps_stored.
  - intros u u'. by eapply (anchor_loop_stores _ _ _ _ _ _ i j k).
Qed.

Lemma generate_hashes_sound peaks fan_value lo hi peak_sort m h t :
  generate_hashes peaks fan_value lo hi peak_sort = Ok m →
  stored m h t →
  contribution (arrange peak_sort peaks) fan_value lo hi (h, t).
Proof.
  intros Hrun (ts & Hts & Ht).
  destruct (generate_hashes_from_window _ _ _ _ _ _ Hrun) as (log & -> & Hlog).
  rewrite Forall_forall in Hlog. apply Hlog. by eapply accumulate_entry.
Qed.

(** X6 (what is stored). When [generate_hashes] returns a dictionary, the
    offset [t] is stored under the key [h] exactly when some triple of peaks
    at the indices [i < i + j < i + k] of the arranged list, with
    [1 <= j < k < fan_value] and both time differences in the window, has
    the hash [h] and the anchor time [t]: no such triple is skipped and
    nothing else is stored. *)
Theorem stored_iff_contribution (peaks : list (Z * Z))
    (fan_value min_hash_time_delta max_hash_time_delta : Z) (peak_sort : bool)
    (m : gmap string (list Z)) (h : string) (t : Z) :
  generate_hashes peaks fan_value min_hash_time_delta max_hash_time_delta
    peak_sort = Ok m →
  ((∃ ts, m !! h = Some ts ∧ t ∈ ts) ↔
   ∃ (i j k freq1 t1 freq2 t2 freq3 t3 : Z) (ratio : spec_float),
     0 ≤ i ∧ 1 ≤ j ∧ j < k ∧ k < fan_value ∧
     arrange peak_sort peaks !! Z.to_nat i = Some (freq1, t1) ∧
     arrange peak_sort peaks !! Z.to_nat (i + j) = Some (freq2, t2) ∧
     arrange peak_sort peaks !! Z.to_nat (i + k) = Some (freq3, t3) ∧
     min_hash_time_delta ≤ t3 - t1 ≤ max_hash_time_delta ∧
     min_hash_time_delta ≤ t2 - t1 ≤ max_hash_time_delta ∧
     int_true_divide (t2 - t1) (t3 - t1) = Ok ratio ∧
     (h, t) = (fingerprint_hash freq1 freq2 freq3 ratio, t1)).
Proof.
  intros Hrun. split.
  - by apply generate_hashes_sound.
  - by apply generate_hashes_complete.
Qed.

Lemma stored_iff_contribution_witness :
  let m : gmap string (list Z) := {[ "b692efed1b4e70671fb2"%string := [0] ]} in
  generate_hashes [(10, 0); (8, 15); (5, 30)] 15 10 200 true = Ok m ∧
  ∃ (i j k freq1 t1 freq2 t2 freq3 t3 : Z) (ratio : spec_float),
    0 ≤ i ∧ 1 ≤ j ∧ j < k ∧ k < 15 ∧
    arrange true [(10, 0); (8, 15); (5, 30)] !! Z.to_nat i = Some (freq1, t1) ∧
    arrange true [(10, 0); (8, 15); (5, 30)] !! Z.to_nat (i + j)
      = Some (freq2, t2) ∧
    arrange true [(10, 0); (8, 15); (5, 30)] !! Z.to_nat (i + k)
      = Some (freq3, t3) ∧
    10 ≤ t3 - t1 ≤ 200 ∧ 10 ≤ t2 - t1 ≤ 200 ∧
    int_true_divide (t2 - t1) (t3 - t1) = Ok ratio ∧
    ("b692efed1b4e70671fb2"%string, 0)
      = (fingerprint_hash freq1 freq2 freq3 ratio, t1).
Proof.
  intros m.
  assert (generate_hashes [(10, 0); (8, 15); (5, 30)] 15 10 200 true = Ok m)
    as Hrun by (vm_compute; reflexivity).
  split; [exact Hrun|].
  apply (proj1 (stored_iff_contribution _ _ _ _ _ _ _ _ Hrun)).
  exists [0]. split; [vm_compute; reflexivity|left].
Defined.

Lemma contribution_mono peaks fan_value fan_value' lo lo' hi hi' ht :
  fan_value ≤ fan_value' → lo' ≤ lo → hi ≤ hi' →
  contribution peaks fan_value lo hi ht →
  contribution peaks fan_value' lo' hi' ht.
Proof.
  intros Hfan Hlo Hhi
    (i & j & k & freq1 & t1 & freq2 & t2 & freq3 & t3 & ratio & Hc).
  exists i, j, k, freq1, t1, freq2, t2, freq3, t3, ratio.
  destruct Hc as (? & ? & ? & ? & ? & ? & ? & ? & ? & ? & ?).
  repeat split; try done; lia.
Qed.

(** X7 (widening the search). Raising the fan value or widening the window
    only adds: when both calls return a dictionary, every offset stored
    under a key with the smaller fan value and the narrower window is
    stored under the same key with the larger ones. *)
Theorem widening_only_adds (peaks : list (Z * Z)) (fan_value fan_value' : Z)
    (lo lo' hi hi' : Z) (peak_sort : bool) (m m' : gmap string (list Z))
    (h : string) (t : Z) :
  fan_value ≤ fan_value' → lo' ≤ lo → hi ≤ hi' →
  generate_hashes peaks fan_value lo hi peak_sort = Ok m →
  generate_hashes peaks fan_value' lo' hi' peak_sort = Ok m' →
  (∃ ts, m !! h = Some ts ∧ t ∈ ts) →
  ∃ ts', m' !! h = Some ts' ∧ t ∈ ts'.
Proof.
  intros Hfan Hlo Hhi Hrun Hrun' Hin.
  apply (generate_hashes_complete _ _ _ _ _ _ _ _ Hrun').
  eapply contribution_mono; [done..|]. by eapply generate_hashes_sound.
Qed.

Lemma widening_only_adds_witness :
  let m : gmap string (list Z) := {[ "b692efed1b4e70671fb2"%string := [0] ]} in
  (3 ≤ 15 ∧ 5 ≤ 10 ∧ 30 ≤ 200) ∧
  generate_hashes [(10, 0); (8, 15); (5, 30)] 3 10 30 true = Ok m ∧
  generate_hashes [(10, 0); (8, 15); (5, 30)] 15 5 200 true = Ok m ∧
  ∃ ts', m !! "b692efed1b4e70671fb2"%string = Some ts' ∧ 0 ∈ ts'.
Proof.
  intros m.
  assert (generate_hashes [(10, 0); (8, 15); (5, 30)] 3 10 30 true = Ok m)
    as Hrun by (vm_compute; reflexivity).
  assert (generate_hashes [(10, 0); (8, 15); (5, 30)] 15 5 200 true = Ok m)
    as Hrun' by (vm_compute; reflexivity).
  split; [lia|]. split; [exact Hrun|]. split; [exact Hrun'|].
  apply (widening_only_adds _ 3 15 10 5 30 200 true m m _ 0
           ltac:(lia) ltac:(lia) ltac:(lia) Hrun Hrun').
  exists [0]. split; [vm_compute; reflexivity|left].
Defined.

(** *** Order and number of the offsets *)

(** A loop over [range(lo, hi)] with an invariant that depends on the
    index reached. *)
Lemma for_in_range_invariant {S} (I : Z → S → Prop) (lo hi : Z)
    (body : Z → S → result S) (s s' : S) :
  lo ≤ hi → I lo s →
  (∀ i u u', lo ≤ i < hi → I i u → body i u = Ok u' → I (i + 1) u') →
  for_in (range lo hi) body s = Ok s' → I hi s'.
Proof.
  intros Hle. remember (Z.to_nat (hi - lo)) as n eqn:Hn.
  revert lo s Hle Hn. induction n as [|n IH]; intros lo s Hle Hn Hs Hstep.
  - assert (hi = lo) as -> by lia. unfold range. rewrite Z.sub_diag. simpl.
    by intros [= <-].
  - rewrite range_cons by lia. simpl.
    destruct (body lo s) as [u|e] eqn:Hb; [|done].
    apply IH; [lia|lia|by apply (Hstep lo s); [lia|..]|].
    intros i v v' Hi. apply Hstep. lia.
Qed.

Lemma Forall_sublist {A} (P : A → Prop) (l1 l2 : list A) :
  l1 `sublist_of` l2 → Forall P l2 → Forall P l1.
Proof.
  induction 1 as [|x l1 l2 Hsub IH|x l1 l2 Hsub IH]; intros HP; [done|..].
  - apply Forall_cons in HP as [? ?]. constructor; auto.
  - apply Forall_cons in HP as [_ ?]. auto.
Qed.

Lemma StronglySorted_sublist {A} (R : relation A) (l1 l2 : list A) :
  l1 `sublist_of` l2 → StronglySorted R l2 → StronglySorted R l1.
Proof.
  induction 1 as [|x l1 l2 Hsub IH|x l1 l2 Hsub IH]; intros Hs; [done|..].
  - apply StronglySorted_inv in Hs as [Hs Hx]. constructor; [by apply IH|].
    by eapply Forall_sublist.
  - apply StronglySorted_inv in Hs as [Hs _]. by apply IH.
Qed.

Lemma StronglySorted_snoc {A} (R : relation A) (l : list A) (x : A) :
  StronglySorted R l → Forall (λ y, R y x) l → StronglySorted R (l ++ [x]).
Proof.
  induction 1 as [|y l Hl IH Hy]; intros Hx; simpl; [repeat constructor|].
  apply Forall_cons in Hx as [Hyx Hx]. constructor; [by apply IH|].
  apply Forall_app. split; [done|]. by apply Forall_singleton.
Qed.

Lemma offsets_of_sublist (h : string) (log : list (string * Z)) :
  offsets_of h log `sublist_of` log.*2.
Proof. unfold offsets_of. apply fmap_sublist, sublist_filter. Qed.

Lemma anchor_loop_ascending peaks fan_value lo hi i d d' :
  time_ordered peaks → 0 ≤ i < Z.of_nat (length peaks) →
  ascending_log peaks i d →
  anchor_loop peaks fan_value lo hi i d = Ok d' →
  ascending_log peaks (i + 1) d'.
Proof.
  intros Hord Hi Hd. unfold anchor_loop.
  destruct (getitem_in_range peaks i) as ([freq1 t1] & -> & H1); [lia|].
  run_bind. cbn [fst snd].
  assert (ascending_log peaks (i + 1) d) as Hd1.
  { destruct Hd as (log & -> & Hs & Hlog). exists log. repeat split; try done.
    eapply Forall_impl; [done|]. intros ht (i' & f & ? & ?).
    exists i', f. split; [lia|done]. }
  apply (for_in_invariant (ascending_log peaks (i + 1))); [|done].
  intros j u u' _ Hu. unfold second_peak_loop. case_match; [|by intros [= <-]].
  destruct (getitem peaks (i + j)) as [[freq2 t2]|e]; [|done].
  run_bind. cbn [fst snd].
  apply (for_in_invariant (ascending_log peaks (i + 1))); [|done].
  intros k v v' _ Hv. unfold third_peak_loop. case_match; [|by intros [= <-]].
  destruct (getitem peaks (i + k)) as [[freq3 t3]|e]; [|done].
  run_bind. cbn [fst snd].
  destruct ((lo <=? t3 - t1) && (t3 - t1 <=? hi)); [|by intros [= <-]].
  destruct ((lo <=? t2 - t1) && (t2 - t1 <=? hi)); [|by intros [= <-]].
  destruct (int_true_divide (t2 - t1) (t3 - t1)) as [ratio|e]; [|done].
  intros [= <-]. destruct Hv as (log & -> & Hs & Hlog).
  exists (log ++ [(fingerprint_hash freq1 freq2 freq3 ratio, t1)]).
  split; [by rewrite accumulate_snoc|]. split.
  - rewrite fmap_app. apply StronglySorted_snoc; [done|].
    apply Forall_fmap. eapply Forall_impl; [exact Hlog|].
    intros ht (i' & f & Hi' & Hp).
    by apply (Hord (Z.to_nat i') (Z.to_nat i) _ _ ltac:(lia) Hp H1).
  - apply Forall_app. split; [done|]. apply Forall_singleton.
    exists i, freq1. split; [lia|done].
Qed.

(** X8 (offsets in ascending order). When the peaks are hashed in
    ascending order of time (with [peak_sort], or because they were given
    so), the offsets under every key are in ascending order: anchors are
    visited from the earliest to the latest and each offset is appended. *)
Theorem offsets_ascending (peaks : list (Z * Z))
    (fan_value min_hash_time_delta max_hash_time_delta : Z) (peak_sort : bool)
    (m : gmap string (list Z)) (h : string) (ts : list Z) :
  peak_sort = true ∨ time_ordered peaks →
  generate_hashes peaks fan_value min_hash_time_delta max_hash_time_delta
    peak_sort = Ok m →
  m !! h = Some ts →
  StronglySorted Z.le ts.
Proof.
  intros Hsort Hrun Hts.
  assert (time_ordered (arrange peak_sort peaks)) as Hord.
  { destruct peak_sort; [apply sorted_time_ordered|].
    by destruct Hsort as [?|?]. }
  unfold generate_hashes in Hrun.
  apply (for_in_range_invariant (ascending_log (arrange peak_sort peaks)))
    in Hrun.
  - destruct Hrun as (log & -> & Hs & _). rewrite accumulate_lookup in Hts.
    apply (StronglySorted_sublist _ _ _ (offsets_of_sublist h log)) in Hs.
    destruct (offsets_of h log); [done|]. by injection Hts as <-.
  - lia.
  - exists []. repeat split; constructor.
  - intros i u u' Hi Hu. by apply anchor_loop_ascending.
Qed.

Lemma offsets_ascending_witness :
  let m : gmap string (list Z) := {[ "b692efed1b4e70671fb2"%string := [0] ]} in
  (true = true ∨ time_ordered [(10, 0); (8, 15); (5, 30)]) ∧
  generate_hashes [(10, 0); (8, 15); (5, 30)] 15 10 200 true = Ok m ∧
  StronglySorted Z.le [0].
Proof.
  intros m.
  assert (generate_hashes [(10, 0); (8, 15); (5, 30)] 15 10 200 true = Ok m)
    as Hrun by (vm_compute; reflexivity).
  split; [by left|]. split; [exact Hrun|].
  apply (offsets_ascending _ _ _ _ _ _ "b692efed1b4e70671fb2"%string [0]
           (or_introl eq_refl) Hrun).
  vm_compute; reflexivity.
Defined.

Lemma total_offsets_empty : total_offsets ∅ = 0.
Proof. unfold total_offsets. by rewrite map_fold_empty. Qed.

Lemma total_offsets_insert (h : string) (ts : list Z) (d : gmap string (list Z)) :
  d !! h = None →
  total_offsets (<[h := ts]> d) = Z.of_nat (length ts) + total_offsets d.
Proof.
  intros Hd. unfold total_offsets. rewrite map_fold_insert_L; [done| |done].
  intros. lia.
Qed.

Lemma total_offsets_record (h : string) (t : Z) (d : gmap string (list Z)) :
  total_offsets (record_offset h t d) = total_offsets d + 1.
Proof.
  unfold record_offset. destruct (d !! h) as [ts|] eqn:Hd.
  - rewrite <- (insert_delete_id d h ts) at 2 by done.
    rewrite <- insert_delete_eq.
    rewrite !total_offsets_insert by apply lookup_delete_eq.
    rewrite length_app. simpl. lia.
  - rewrite total_offsets_insert by done. simpl. lia.
Qed.

(** A loop whose iteration of [x] raises a measure by at most [cost x]. *)
Lemma for_in_measure {A S} (μ : S → Z) (cost : A → Z) (xs : list A)
    (body : A → S → result S) (s s' : S) :
  (∀ x u u', x ∈ xs → body x u = Ok u' → μ u' ≤ μ u + cost x) →
  for_in xs body s = Ok s' →
  μ s' ≤ μ s + foldr (λ x acc, cost x + acc) 0 xs.
Proof.
  revert s. induction xs as [|x xs IH]; intros s Hstep; simpl.
  - intros [= <-]. lia.
  - destruct (body x s) as [u|e] eqn:Hb; [|done]. intros Hrun.
    pose proof (Hstep x s u ltac:(by left) Hb).
    assert (μ s' ≤ μ u + foldr (λ x acc, cost x + acc) 0 xs); [|lia].
    apply IH; [|done]. intros y v v' Hy. apply Hstep. by right.
Qed.

Lemma foldr_const_cost {A} (c : Z) (xs : list A) :
  foldr (λ _ acc, c + acc) 0 xs = c * Z.of_nat (length xs).
Proof. induction xs as [|x xs IH]; simpl; [lia|]. rewrite IH. lia. Qed.

(** 2 * (n + (n - 1) + ... + 1) = n * (n + 1). *)
Lemma sum_descending (n : nat) (a b : Z) :
  b = a + Z.of_nat n →
  2 * foldr (λ j acc, Z.max 0 (b - j) + acc) 0 (seqZ a (Z.of_nat n))
    = Z.of_nat n * (Z.of_nat n + 1).
Proof.
  revert a. induction n as [|n IH]; intros a Hb; [done|].
  rewrite seqZ_cons by lia. simpl foldr.
  replace (Z.pred (Z.of_nat (S n))) with (Z.of_nat n) by lia.
  specialize (IH (Z.succ a) ltac:(lia)). lia.
Qed.

Lemma anchor_loop_total_offsets peaks fan_value lo hi i d d' :
  anchor_loop peaks fan_value lo hi i d = Ok d' →
  2 * total_offsets d' ≤ 2 * total_offsets d + (fan_value - 1) * (fan_value - 2).
Proof.
  unfold anchor_loop.
  destruct (getitem peaks i) as [[freq1 t1]|e]; [|done]. run_bind. cbn [fst snd].
  intros Hrun.
  apply (for_in_measure total_offsets (λ j, Z.max 0 (fan_value - 1 - j)))
    in Hrun.
  - assert (2 * foldr (λ j acc, Z.max 0 (fan_value - 1 - j) + acc) 0
                  (range 1 (fan_value - 1))
            ≤ (fan_value - 1) * (fan_value - 2)); [|lia].
    unfold range. destruct (Z.le_gt_cases 2 fan_value) as [Hfan|Hfan].
    + rewrite <- (Z2Nat.id (fan_value - 1 - 1)) by lia.
      rewrite (sum_descending _ 1 (fan_value - 1)) by lia. nia.
    + rewrite (seqZ_nil 1 (fan_value - 1 - 1)) by lia. simpl. nia.
  - intros j u u' _. unfold second_peak_loop.
    case_match; [|intros [= <-]; lia].
    destruct (getitem peaks (i + j)) as [[freq2 t2]|e]; [|done].
    run_bind. cbn [fst snd]. intros Hrun2.
    apply (for_in_measure total_offsets (λ _, 1)) in Hrun2.
    + rewrite foldr_const_cost in Hrun2. unfold range in Hrun2.
      rewrite length_seqZ in Hrun2. lia.
    + intros k v v' _. unfold third_peak_loop.
      case_match; [|intros [= <-]; lia].
      destruct (getitem peaks (i + k)) as [[freq3 t3]|e]; [|done].
      run_bind. cbn [fst snd].
      destruct ((lo <=? t3 - t1) && (t3 - t1 <=? hi)); [|intros [= <-]; lia].
      destruct ((lo <=? t2 - t1) && (t2 - t1 <=? hi)); [|intros [= <-]; lia].
      destruct (int_true_divide (t2 - t1) (t3 - t1)) as [ratio|e]; [|done].
      intros [= <-]. rewrite total_offsets_record. lia.
Qed.

(** X9 (number of offsets). Each anchor is paired with at most
    [(fan_value - 1) * (fan_value - 2) / 2] pairs of later peaks, so the
    dictionary holds at most that many offsets per peak, over all keys. *)
Theorem total_offsets_bound (peaks : list (Z * Z))
    (fan_value min_hash_time_delta max_hash_time_delta : Z) (peak_sort : bool)
    (m : gmap string (list Z)) :
  generate_hashes peaks fan_value min_hash_time_delta max_hash_time_delta
    peak_sort = Ok m →
  2 * total_offsets m
    ≤ Z.of_nat (length peaks) * ((fan_value - 1) * (fan_value - 2)).
Proof.
  unfold generate_hashes. intros Hrun.
  apply (for_in_measure (λ d, 2 * total_offsets d)
           (λ _, (fan_value - 1) * (fan_value - 2))) in Hrun.
  - rewrite foldr_const_cost, total_offsets_empty in Hrun.
    unfold range in Hrun.
    rewrite length_seqZ, length_arrange, Z.sub_0_r, Nat2Z.id in Hrun. lia.
  - intros i u u' _. apply anchor_loop_total_offsets.
Qed.

Lemma total_offsets_bound_witness :
  let m : gmap string (list Z) := {[ "b692efed1b4e70671fb2"%string := [0] ]} in
  generate_hashes [(10, 0); (8, 15); (5, 30)] 15 10 200 true = Ok m ∧
  2 * total_offsets m ≤ 3 * ((15 - 1) * (15 - 2)).
Proof.
  intros m.
  assert (generate_hashes [(10, 0); (8, 15); (5, 30)] 15 10 200 true = Ok m)
    as Hrun by (vm_compute; reflexivity).
  split; [exact Hrun|].
  exact (total_offsets_bound _ _ _ _ _ _ Hrun).
Defined.

(* ===================================================================== *)
(** ** Further properties of the peak extractor *)
(* ===================================================================== *)

(** *** Float comparisons *)

Lemma SFltb_irrefl (a : spec_float) : SFltb a a = false.
Proof. float_cases. Qed.

Lemma SFltb_trans (a b c : spec_float) :
  SFltb a b = true → SFltb b c = true → SFltb a c = true.
Proof. float_cases. Qed.

(** [b <= a] and [c <= b] give [c <= a] when [b] is a number. *)
Lemma SFltb_false_trans (a b c : spec_float) :
  b ≠ S754_nan → SFltb a b = false → SFltb b c = false → SFltb a c = false.
Proof. float_cases. Qed.

Lemma SFeqb_SFltb (r c x : spec_float) :
  SFeqb r c = true → SFltb r x = false → SFltb c x = false.
Proof. float_cases. Qed.

Lemma SFeqb_not_nan (r c : spec_float) : SFeqb r c = true → r ≠ S754_nan.
Proof. by intros H ->. Qed.

(** *** Peaks are local maxima *)

Lemma running_max_nan {A} (value : A → spec_float) (ds : list A) :
  running_max value ds S754_nan = S754_nan.
Proof. induction ds as [|d ds IH]; [done|]. simpl. exact IH. Qed.

(** A running maximum that is a number is exceeded neither by its first
    value nor by any later one. *)
Lemma running_max_upper {A} (value : A → spec_float) (ds : list A)
    (init : spec_float) :
  running_max value ds init ≠ S754_nan →
  SFltb (running_max value ds init) init = false ∧
  ∀ d, d ∈ ds → SFltb (running_max value ds init) (value d) = false.
Proof.
  revert init. induction ds as [|d ds IH]; intros init Hnan.
  { split; [apply SFltb_irrefl|]. by intros d ?%elem_of_nil. }
  change (running_max value (d :: ds) init)
    with (running_max value ds (max_step init (value d))) in *.
  destruct (IH _ Hnan) as [Hinit Hds]. unfold max_step in *.
  set (r := running_max value ds (if SFltb init (value d) then value d else init))
    in *.
  assert (SFltb r init = false ∧ SFltb r (value d) = false) as [? ?].
  { destruct (SFltb init (value d)) eqn:Hlt.
    - split; [|done]. destruct (SFltb r init) eqn:Hr; [|done].
      by rewrite (SFltb_trans _ _ _ Hr Hlt) in Hinit.
    - split; [done|]. apply (SFltb_false_trans _ init); [|done..].
      intros ->. subst r. by rewrite running_max_nan in Hnan. }
  split; [done|]. intros d' [->|Hd']%elem_of_cons; [done|by apply Hds].
Qed.

Section LocalMaximum.
Variables (outside : Z → Z → spec_float) (arr2D : ndarray).
Variable neighborhood : mask.
Hypothesis Hcentre : (0, 0) ∈ offsets neighborhood.

(** A cell that is not zero is outside of the eroded background. *)
Lemma nonzero_not_eroded r c x :
  lookup2 arr2D r c = Some x → SFeqb x fzero = false →
  mask_at (binary_erosion (eq_scalar arr2D fzero) neighborhood true) false r c
    = false.
Proof.
  intros Hx Hnz. unfold mask_at, binary_erosion, eq_scalar at 1.
  rewrite !lookup2_tabulate, Hx. simpl.
  apply not_true_is_false. rewrite forallb_forall. intros Hall.
  specialize (Hall (0, 0) ltac:(by apply list_elem_of_In)). simpl in Hall.
  unfold mask_at, eq_scalar in Hall.
  rewrite !Z.add_0_r, lookup2_tabulate, Hx in Hall. simpl in Hall. congruence.
Qed.

(** A detected cell that is not zero equals the maximum of its
    neighbourhood: no value that the filter reads exceeds it. *)
Lemma detected_nonzero_is_maximum r c x d :
  lookup2
    (xor_mask (eq_array (maximum_filter outside arr2D neighborhood) arr2D)
       (binary_erosion (eq_scalar arr2D fzero) neighborhood true)) r c
    = Some true →
  lookup2 arr2D r c = Some x → SFeqb x fzero = false →
  d ∈ offsets neighborhood →
  SFltb x (read outside arr2D (reflect (nrows arr2D) (r + d.1))
             (reflect (ncols arr2D) (c + d.2))) = false.
Proof.
  intros Hdet Hx Hnz Hd. revert Hdet. unfold xor_mask.
  rewrite lookup2_tabulate, (nonzero_not_eroded _ _ _ Hx Hnz).
  unfold eq_array, maximum_filter. rewrite !lookup2_tabulate, Hx. simpl.
  rewrite xorb_false_r. intros [= Hmax].
  assert (cell arr2D r c = x) as Hcell by (unfold cell; by rewrite Hx).
  rewrite Hcell in Hmax.
  destruct (offsets neighborhood) as [|d0 ds] eqn:Hoff;
    [by apply elem_of_nil in Hd|].
  set (value := λ d : Z * Z,
         read outside arr2D (reflect (nrows arr2D) (r + d.1))
           (reflect (ncols arr2D) (c + d.2))) in *.
  change (SFeqb (running_max value ds (value d0)) x = true) in Hmax.
  destruct (running_max_upper value ds (value d0) (SFeqb_not_nan _ _ Hmax))
    as [H0 Hds].
  apply (SFeqb_SFltb _ _ _ Hmax).
  apply elem_of_cons in Hd as [->|Hd]; [done|by apply Hds].
Qed.
End LocalMaximum.

(** With a floor that is not negative, an emitted peak is exceeded by no
    value that the filter reads in its neighbourhood. *)
Lemma peak_dominates_neighborhood (outside : Z → Z → spec_float)
    (arr2D : ndarray) (amp_min : spec_float) (freq time : Z) (d : Z * Z) :
  SFleb fzero amp_min = true →
  (freq, time) ∈ get_2D_peaks outside arr2D amp_min →
  d ∈ offsets peak_neighborhood →
  SFltb (cell arr2D freq time)
    (read outside arr2D (reflect (nrows arr2D) (freq + d.1))
       (reflect (ncols arr2D) (time + d.2))) = false.
Proof.
  intros Hfloor Hin Hd.
  apply get_2D_peaks_detected in Hin as (Hdet & amp & Hamp & Habove).
  assert (cell arr2D freq time = amp) as -> by (unfold cell; by rewrite Hamp).
  rewrite detected_peaks_unfold in Hdet.
  exact (detected_nonzero_is_maximum outside arr2D peak_neighborhood
    (elem_of_peak_offsets 0 0 ltac:(by vm_compute)) freq time amp d Hdet Hamp
    (above_floor_not_zero _ _ Hfloor Habove) Hd).
Qed.

(** X10 (peaks are local maxima). With a floor that is not negative, no
    cell of the grid within [PEAK_NEIGHBORHOOD_SIZE] steps of an emitted
    peak, rows and columns added, has a larger amplitude than the peak. *)
Theorem peaks_are_local_maxima (outside : Z → Z → spec_float)
    (arr2D : ndarray) (amp_min : spec_float) (freq time freq' time' : Z) :
  SFleb fzero amp_min = true →
  (freq, time) ∈ get_2D_peaks outside arr2D amp_min →
  0 ≤ freq' < nrows arr2D → 0 ≤ time' < ncols arr2D →
  Z.abs (freq' - freq) + Z.abs (time' - time) ≤ PEAK_NEIGHBORHOOD_SIZE →
  SFltb (cell arr2D freq time) (cell arr2D freq' time') = false.
Proof.
  intros Hfloor Hin Hf Ht Hnear.
  pose proof (peak_dominates_neighborhood outside arr2D amp_min freq time
                (freq' - freq, time' - time) Hfloor Hin
                (elem_of_peak_offsets _ _ Hnear)) as Hmax.
  cbn [fst snd] in Hmax.
  by rewrite !reflect_offset, read_cell in Hmax by lia.
Qed.

Lemma peaks_are_local_maxima_witness :
  let grid := [float_of_Z <$> [70; 68; 69; 68; 66; 67]] in
  SFleb fzero DEFAULT_AMP_MIN = true ∧
  (0, 0) ∈ get_2D_peaks (filled (float_of_Z 100)) grid DEFAULT_AMP_MIN ∧
  SFltb (cell grid 0 0) (cell grid 0 2) = false.
Proof.
  intros grid.
  assert (SFleb fzero DEFAULT_AMP_MIN = true) as Hfloor
    by (vm_compute; reflexivity).
  assert ((0, 0) ∈ get_2D_peaks (filled (float_of_Z 100)) grid DEFAULT_AMP_MIN)
    as Hin by (vm_compute; left).
  split; [exact Hfloor|]. split; [exact Hin|].
  apply (peaks_are_local_maxima _ _ _ 0 0 0 2 Hfloor Hin).
  - unfold nrows. simpl. lia.
  - unfold ncols. simpl. lia.
  - unfold PEAK_NEIGHBORHOOD_SIZE. simpl. lia.
Defined.

(** *** The order of the peaks *)

Lemma true_cells_row_sorted (r : Z) (k : nat) (row : list bool) :
  let cells :=
    omap id (imap (λ c (b : bool),
      if b then Some (r, Z.of_nat (k + c)) else None) row) in
  StronglySorted scan_lt cells ∧
  Forall (λ p : Z * Z, p.1 = r ∧ Z.of_nat k ≤ p.2) cells.
Proof.
  revert k. induction row as [|b row IH]; intros k; simpl.
  { split; constructor. }
  rewrite (imap_ext _ (λ c (b : bool),
             if b then Some (r, Z.of_nat (S k + c)) else None))
    by (intros c [] _; simpl; [|done]; do 2 f_equal; lia).
  destruct (IH (S k)) as [Hs Hf].
  assert (Forall (λ p : Z * Z, p.1 = r ∧ Z.of_nat k ≤ p.2)
            (omap id (imap (λ c (b : bool),
               if b then Some (r, Z.of_nat (S k + c)) else None) row)))
    as Hf'.
  { eapply Forall_impl; [exact Hf|]. intros p [? ?]. split; [done|lia]. }
  destruct b; simpl; [|done]. rewrite Nat.add_0_r. split.
  - constructor; [done|]. eapply Forall_impl; [exact Hf|].
    intros p [? ?]. right. simpl. split; [done|lia].
  - constructor; [simpl; split; [done|lia]|done].
Qed.

Lemma StronglySorted_append {A} (R : relation A) (l1 l2 : list A) :
  StronglySorted R l1 → StronglySorted R l2 →
  (∀ x y, x ∈ l1 → y ∈ l2 → R x y) →
  StronglySorted R (l1 ++ l2).
Proof.
  induction 1 as [|x l1 Hl1 IH Hx]; intros H2 Hcross; simpl; [done|].
  constructor.
  - apply IH; [done|]. intros y z Hy. apply Hcross. by right.
  - apply Forall_app. split; [done|]. apply Forall_forall.
    intros y Hy. apply Hcross; [by left|done].
Qed.

Lemma true_cells_rows_sorted (k : nat) (m : mask) :
  let cells :=
    concat (imap (λ r row,
      omap id (imap (λ c (b : bool),
        if b then Some (Z.of_nat (k + r), Z.of_nat c) else None) row)) m) in
  StronglySorted scan_lt cells ∧ Forall (λ p : Z * Z, Z.of_nat k ≤ p.1) cells.
Proof.
  revert k. induction m as [|row m IH]; intros k; simpl.
  { split; constructor. }
  rewrite (imap_ext _ (λ r row,
             omap id (imap (λ c (b : bool),
               if b then Some (Z.of_nat (S k + r), Z.of_nat c) else None) row)))
    by (intros r row' _; simpl; f_equal;
        apply imap_ext; intros c [] _; [|done]; do 2 f_equal; lia).
  destruct (IH (S k)) as [Hs Hf]. rewrite Nat.add_0_r.
  destruct (true_cells_row_sorted (Z.of_nat k) 0 row) as [Hrs Hrf].
  simpl in Hrs, Hrf. split.
  - apply StronglySorted_append; [done..|]. intros p q Hp Hq.
    rewrite Forall_forall in Hrf, Hf.
    destruct (Hrf _ Hp) as [? _]. pose proof (Hf _ Hq). left. lia.
  - apply Forall_app. split.
    + eapply Forall_impl; [exact Hrf|]. intros p [-> _]. done.
    + eapply Forall_impl; [exact Hf|]. simpl. intros p ?. lia.
Qed.

(** The true cells of a mask come in scan order. *)
Lemma true_cells_sorted (m : mask) : StronglySorted scan_lt (true_cells m).
Proof. apply (true_cells_rows_sorted 0 m). Qed.

Lemma StronglySorted_NoDup {A} (R : relation A) (l : list A) :
  (∀ x, ¬ R x x) → StronglySorted R l → NoDup l.
Proof.
  intros Hirr. induction 1 as [|x l Hl IH Hx]; constructor; [|done].
  intros Hin. rewrite Forall_forall in Hx. by apply (Hirr x), Hx.
Qed.

(** X11 (scan order). The peaks come out in the order of a scan of the
    grid by frequency, then by time, each cell at most once; this is the
    order that [generate_hashes] works on when [peak_sort] is off. *)
Theorem peaks_in_scan_order (outside : Z → Z → spec_float) (arr2D : ndarray)
    (amp_min : spec_float) :
  StronglySorted (λ p q : Z * Z, p.1 < q.1 ∨ (p.1 = q.1 ∧ p.2 < q.2))
    (get_2D_peaks outside arr2D amp_min) ∧
  NoDup (get_2D_peaks outside arr2D amp_min).
Proof.
  assert (StronglySorted scan_lt (get_2D_peaks outside arr2D amp_min)) as Hs.
  { rewrite get_2D_peaks_filter.
    eapply StronglySorted_sublist; [apply sublist_filter|].
    apply true_cells_sorted. }
  split; [done|]. apply (StronglySorted_NoDup scan_lt); [|done].
  intros p [?|[_ ?]]; lia.
Qed.

(** *** Flat grids *)

Lemma true_cells_elem_of (m : mask) (r c : Z) :
  lookup2 m r c = Some true → (r, c) ∈ true_cells m.
Proof.
  unfold lookup2, true_cells.
  destruct (Z.ltb_spec r 0); [done|]. destruct (Z.ltb_spec c 0); [done|]. simpl.
  intros (row & Hrow & Hc)%bind_Some.
  apply list_elem_of_In, in_concat.
  eexists. split; apply list_elem_of_In.
  - by apply (elem_of_lookup_imap_2 _ _ _ _ Hrow).
  - apply list_elem_of_omap. exists (Some (r, c)). split; [|done].
    apply elem_of_lookup_imap. exists (Z.to_nat c), true.
    split; [|done]. simpl. do 2 f_equal; lia.
Qed.

Lemma lookup2_bounds {A} (a : list (list A)) (r c : Z) (x : A) :
  rectangular a → lookup2 a r c = Some x →
  0 ≤ r < nrows a ∧ 0 ≤ c < ncols a.
Proof.
  unfold lookup2, rectangular, nrows. intros Hrect.
  destruct (Z.ltb_spec r 0); [done|]. destruct (Z.ltb_spec c 0); [done|]. simpl.
  intros (row & Hrow & Hc)%bind_Some.
  pose proof (lookup_lt_Some _ _ _ Hrow). pose proof (lookup_lt_Some _ _ _ Hc).
  rewrite Forall_forall in Hrect.
  pose proof (Hrect row (list_elem_of_lookup_2 _ _ _ Hrow)). lia.
Qed.

Lemma lookup2_in_bounds {A} (a : list (list A)) (r c : Z) :
  rectangular a → 0 ≤ r < nrows a → 0 ≤ c < ncols a →
  is_Some (lookup2 a r c).
Proof.
  unfold lookup2, rectangular, nrows. intros Hrect Hr Hc.
  destruct (Z.ltb_spec r 0); [lia|]. destruct (Z.ltb_spec c 0); [lia|]. simpl.
  destruct (lookup_lt_is_Some_2 a (Z.to_nat r)) as [row Hrow]; [lia|].
  rewrite Hrow. simpl. apply lookup_lt_is_Some_2.
  rewrite Forall_forall in Hrect.
  pose proof (Hrect row (list_elem_of_lookup_2 _ _ _ Hrow)). lia.
Qed.

Lemma running_max_constant {A} (value : A → spec_float) (ds : list A)
    (v : spec_float) :
  (∀ d, d ∈ ds → value d = v) → running_max value ds v = v.
Proof.
  induction ds as [|d ds IH]; intros Hv; [done|].
  change (running_max value (d :: ds) v)
    with (running_max value ds (max_step v (value d))).
  rewrite (Hv d) by (by left). unfold max_step. rewrite SFltb_irrefl.
  apply IH. intros d' Hd'. apply Hv. by right.
Qed.

Lemma SFltb_SFeqb_refl (a v : spec_float) : SFltb a v = true → SFeqb v v = true.
Proof. float_cases. Qed.

Section Plateau.
Variables (outside : Z → Z → spec_float) (arr2D : ndarray).
Variables (neighborhood : mask) (v : spec_float).
Hypothesis Hcentre : (0, 0) ∈ offsets neighborhood.
Hypothesis Hnear : ∀ d, d ∈ offsets neighborhood →
  Z.abs d.1 + Z.abs d.2 ≤ PEAK_NEIGHBORHOOD_SIZE.
Hypothesis Hrect : rectangular arr2D.
Hypothesis Hin : reads_in_bounds arr2D.
Hypothesis Hflat : Forall (Forall (λ x, x = v)) arr2D.

Lemma plateau_lookup r c x : lookup2 arr2D r c = Some x → x = v.
Proof.
  unfold lookup2. case_match; [done|].
  intros (row & Hrow & Hx)%bind_Some. rewrite Forall_forall in Hflat.
  pose proof (Hflat row (list_elem_of_lookup_2 _ _ _ Hrow)) as Hr.
  rewrite Forall_forall in Hr. apply Hr. by eapply list_elem_of_lookup_2.
Qed.

Lemma plateau_cell r c :
  0 ≤ r < nrows arr2D → 0 ≤ c < ncols arr2D → cell arr2D r c = v.
Proof.
  intros Hr Hc. unfold cell.
  destruct (lookup2_in_bounds arr2D r c Hrect Hr Hc) as [x Hx].
  rewrite Hx. simpl. by eapply plateau_lookup.
Qed.

(** Every value that the filter reads is a cell of the grid, [v]. *)
Lemma plateau_read r c d :
  0 ≤ r < nrows arr2D → 0 ≤ c < ncols arr2D → d ∈ offsets neighborhood →
  read outside arr2D (reflect (nrows arr2D) (r + d.1))
    (reflect (ncols arr2D) (c + d.2)) = v.
Proof.
  intros Hr Hc Hd%Hnear. rewrite read_in_bounds by (done || lia).
  destruct Hin as [Hrows Hcols].
  apply plateau_cell; (split; [apply reflect_nonneg|apply reflect_lt]);
    (done || lia).
Qed.

Lemma plateau_detected r c x :
  SFeqb v v = true → SFeqb v fzero = false →
  lookup2 arr2D r c = Some x →
  lookup2
    (xor_mask (eq_array (maximum_filter outside arr2D neighborhood) arr2D)
       (binary_erosion (eq_scalar arr2D fzero) neighborhood true)) r c
    = Some true.
Proof.
  intros Hnum Hnz Hx. pose proof (plateau_lookup _ _ _ Hx) as ->.
  destruct (lookup2_bounds _ _ _ _ Hrect Hx) as [Hr Hc].
  unfold xor_mask. rewrite lookup2_tabulate.
  rewrite (nonzero_not_eroded arr2D neighborhood Hcentre _ _ _ Hx Hnz).
  unfold eq_array, maximum_filter. rewrite !lookup2_tabulate, Hx. simpl.
  rewrite xorb_false_r. f_equal.
  rewrite (plateau_cell r c Hr Hc).
  pose proof (λ d, plateau_read r c d Hr Hc) as Hvalue.
  destruct (offsets neighborhood) as [|d0 ds]; [done|].
  rewrite (Hvalue d0) by (by left).
  change (SFeqb
            (running_max
               (λ d : Z * Z,
                  read outside arr2D (reflect (nrows arr2D) (r + d.1))
                    (reflect (ncols arr2D) (c + d.2))) ds v) v = true).
  rewrite running_max_constant; [done|].
  intros d Hd. apply Hvalue. by right.
Qed.
End Plateau.

(** X12 (flat grids). On a grid whose cells all hold the same value,
    not zero and above the floor, and on which the filter stays within
    the grid, every cell is emitted as a peak: each cell equals the maximum
    of its neighbourhood and no cell belongs to the background. Only the
    flat regions at zero are suppressed. *)
Theorem flat_grid_every_cell_is_a_peak (outside : Z → Z → spec_float)
    (arr2D : ndarray) (v amp_min : spec_float) (freq time : Z)
    (x : spec_float) :
  rectangular arr2D → reads_in_bounds arr2D →
  Forall (Forall (λ x, x = v)) arr2D →
  SFeqb v fzero = false → SFltb amp_min v = true →
  lookup2 arr2D freq time = Some x →
  (freq, time) ∈ get_2D_peaks outside arr2D amp_min.
Proof.
  intros Hrect Hin Hflat Hnz Habove Hx. rewrite get_2D_peaks_filter.
  apply list_elem_of_filter. split.
  - cbn [fst snd]. unfold cell. rewrite Hx. cbn [default].
    by rewrite (plateau_lookup _ _ Hflat _ _ _ Hx).
  - apply true_cells_elem_of. rewrite detected_peaks_unfold.
    apply (plateau_detected outside arr2D peak_neighborhood v
             (elem_of_peak_offsets 0 0 ltac:(by vm_compute))
             peak_offsets_bounded Hrect Hin Hflat _ _ x);
      [by eapply SFltb_SFeqb_refl|done|done].
Qed.

Lemma flat_grid_every_cell_is_a_peak_witness :
  let grid := replicate 6 (replicate 7 (float_of_Z 70)) in
  rectangular grid ∧ reads_in_bounds grid ∧
  Forall (Forall (λ x, x = float_of_Z 70)) grid ∧
  SFeqb (float_of_Z 70) fzero = false ∧
  SFltb DEFAULT_AMP_MIN (float_of_Z 70) = true ∧
  (0, 0) ∈ get_2D_peaks (filled (float_of_Z 100)) grid DEFAULT_AMP_MIN.
Proof.
  intros grid.
  assert (rectangular grid) as Hrect by (repeat constructor).
  assert (reads_in_bounds grid) as Hin by (split; right; by vm_compute).
  assert (Forall (Forall (λ x, x = float_of_Z 70)) grid) as Hflat
    by (repeat constructor).
  assert (SFeqb (float_of_Z 70) fzero = false) as Hnz
    by (vm_compute; reflexivity).
  assert (SFltb DEFAULT_AMP_MIN (float_of_Z 70) = true) as Habove
    by (vm_compute; reflexivity).
  repeat (split; [assumption|]).
  apply (flat_grid_every_cell_is_a_peak _ _ _ _ 0 0 (float_of_Z 70)
           Hrect Hin Hflat Hnz Habove).
  vm_compute; reflexivity.
Defined.

Lemma SFeqb_of_not_SFltb (floor a b : spec_float) :
  SFltb floor a = true → SFltb floor b = true →
  SFltb a b = false → SFltb b a = false → SFeqb a b = true.
Proof. float_cases. Qed.

(** X15 (peaks keep their distance). With a floor that is not negative,
    two peaks of a grid that lie within [PEAK_NEIGHBORHOOD_SIZE] steps of
    each other, rows and columns added, have equal amplitudes: of two
    close cells with different amplitudes at most one is a peak. *)
Theorem close_peaks_have_equal_amplitudes (outside : Z → Z → spec_float)
    (arr2D : ndarray) (amp_min : spec_float) (freq time freq' time' : Z) :
  rectangular arr2D → SFleb fzero amp_min = true →
  (freq, time) ∈ get_2D_peaks outside arr2D amp_min →
  (freq', time') ∈ get_2D_peaks outside arr2D amp_min →
  Z.abs (freq' - freq) + Z.abs (time' - time) ≤ PEAK_NEIGHBORHOOD_SIZE →
  SFeqb (cell arr2D freq time) (cell arr2D freq' time') = true.
Proof.
  intros Hrect Hfloor Hp Hq Hnear.
  destruct (get_2D_peaks_detected _ _ _ _ _ Hp) as (_ & a & Ha & Haf).
  destruct (get_2D_peaks_detected _ _ _ _ _ Hq) as (_ & b & Hb & Hbf).
  destruct (lookup2_bounds _ _ _ _ Hrect Ha) as [? ?].
  destruct (lookup2_bounds _ _ _ _ Hrect Hb) as [? ?].
  pose proof (peak_dominates_neighborhood outside arr2D amp_min freq time
                (freq' - freq, time' - time) Hfloor Hp
                (elem_of_peak_offsets _ _ Hnear)) as Hab.
  pose proof (peak_dominates_neighborhood outside arr2D amp_min freq' time'
                (freq - freq', time - time') Hfloor Hq
                (elem_of_peak_offsets (freq - freq') (time - time')
                   ltac:(lia))) as Hba.
  cbn [fst snd] in Hab, Hba.
  rewrite !reflect_offset, read_cell in Hab, Hba by lia.
  apply (SFeqb_of_not_SFltb amp_min); try done.
  - unfold cell. by rewrite Ha.
  - unfold cell. by rewrite Hb.
Qed.

Lemma close_peaks_have_equal_amplitudes_witness :
  let grid := [replicate 6 (float_of_Z 70)] in
  rectangular grid ∧ SFleb fzero DEFAULT_AMP_MIN = true ∧
  (0, 0) ∈ get_2D_peaks (filled (float_of_Z 100)) grid DEFAULT_AMP_MIN ∧
  (0, 1) ∈ get_2D_peaks (filled (float_of_Z 100)) grid DEFAULT_AMP_MIN ∧
  SFeqb (cell grid 0 0) (cell grid 0 1) = true.
Proof.
  intros grid.
  assert (rectangular grid) as Hrect by (repeat constructor).
  assert (SFleb fzero DEFAULT_AMP_MIN = true) as Hfloor
    by (vm_compute; reflexivity).
  assert ((0, 0) ∈ get_2D_peaks (filled (float_of_Z 100)) grid DEFAULT_AMP_MIN)
    as Hp by (vm_compute; left).
  assert ((0, 1) ∈ get_2D_peaks (filled (float_of_Z 100)) grid DEFAULT_AMP_MIN)
    as Hq by (vm_compute; right; left).
  repeat (split; [assumption|]).
  apply (close_peaks_have_equal_amplitudes _ _ _ 0 0 0 1 Hrect Hfloor Hp Hq).
  unfold PEAK_NEIGHBORHOOD_SIZE. simpl. lia.
Defined.

(* ===================================================================== *)
(** ** Properties of the pipeline *)
(* ===================================================================== *)

Lemma tabulate_Forall {A B} (P : A → Prop) (Q : B → Prop) (a : list (list A))
    (f : Z → Z → A → B) :
  (∀ r c x, P x → Q (f r c x)) →
  Forall (Forall P) a → Forall (Forall Q) (tabulate a f).
Proof.
  intros Hf Ha. unfold tabulate. apply Forall_lookup. intros i row' Hrow'.
  apply list_lookup_imap_Some in Hrow' as (row & Hrow & ->).
  apply Forall_lookup. intros j y Hy.
  apply list_lookup_imap_Some in Hy as (x & Hx & ->). apply Hf.
  rewrite Forall_lookup in Ha. pose proof (Ha _ _ Hrow) as Hr.
  rewrite Forall_lookup in Hr. by eapply Hr.
Qed.

Lemma nrows_tabulate {A B} (a : list (list A)) (f : Z → Z → A → B) :
  nrows (tabulate a f) = nrows a.
Proof. unfold nrows, tabulate. by rewrite length_imap. Qed.

Lemma ncols_tabulate {A B} (a : list (list A)) (f : Z → Z → A → B) :
  ncols (tabulate a f) = ncols a.
Proof.
  unfold ncols, tabulate. destruct a as [|row a]; [done|].
  simpl. by rewrite length_imap.
Qed.

(** X13 (silence). A spectrogram of zeros gives no fingerprint: the
    logarithm of every cell is minus infinity, which the normalisation
    replaces by zero, and a grid of zeros on which the filter stays within
    the grid, or with a floor that is not negative, has no peak. The call
    returns the empty dictionary for every fan value and window. *)
Theorem silence_yields_no_fingerprint (log2 : spec_float → spec_float)
    (outside : Z → Z → spec_float) (arr2D : ndarray) (fan_value : Z)
    (amp_min : spec_float) (min_hash_time_delta max_hash_time_delta : Z)
    (peak_sort : bool) :
  (∀ s, log2 (S754_zero s) = S754_infinity true) →
  Forall (Forall (λ x, SFeqb x fzero = true)) arr2D →
  SFleb fzero amp_min = true ∨ reads_in_bounds arr2D →
  Forall (Forall (λ x, x = fzero))
    (replace_neg_infinity (log_transform log2 arr2D)) ∧
  fingerprint_of_specgram log2 outside arr2D fan_value amp_min
    min_hash_time_delta max_hash_time_delta peak_sort = Ok ∅.
Proof.
  intros Hlog Hzero Hsafe.
  assert (Forall (Forall (λ x, x = fzero))
            (replace_neg_infinity (log_transform log2 arr2D))) as Hnorm.
  { unfold replace_neg_infinity, log_transform.
    apply (tabulate_Forall (λ x, x = S754_infinity true)); [by intros r c x ->|].
    apply (tabulate_Forall is_zero); [|done].
    intros r c x [s ->]%is_zero_inv. by rewrite Hlog. }
  split; [done|].
  unfold fingerprint_of_specgram, fingerprint_of_spectrogram.
  rewrite zero_grid_silent; [apply generate_hashes_on_nil| |].
  - eapply Forall_impl; [exact Hnorm|]. intros row Hrow.
    eapply Forall_impl; [exact Hrow|]. by intros x ->.
  - destruct Hsafe as [Hfloor|Hin]; [by left|right].
    unfold reads_in_bounds, replace_neg_infinity, log_transform.
    by rewrite !nrows_tabulate, !ncols_tabulate.
Qed.

Lemma silence_yields_no_fingerprint_witness :
  let log2 (x : spec_float) :=
    match x with S754_zero _ => S754_infinity true | _ => x end in
  let grid := replicate 6 (replicate 6 fzero) in
  (∀ s, log2 (S754_zero s) = S754_infinity true) ∧
  Forall (Forall (λ x, SFeqb x fzero = true)) grid ∧
  reads_in_bounds grid ∧
  fingerprint_of_specgram log2 (filled (float_of_Z 100)) grid
    DEFAULT_FAN_VALUE (float_of_Z (-5)) MIN_HASH_TIME_DELTA
    MAX_HASH_TIME_DELTA PEAK_SORT = Ok ∅.
Proof.
  intros log2 grid.
  assert (∀ s, log2 (S754_zero s) = S754_infinity true) as Hlog by done.
  assert (Forall (Forall (λ x, SFeqb x fzero = true)) grid) as Hzero
    by (repeat constructor).
  assert (reads_in_bounds grid) as Hin by (split; right; by vm_compute).
  split; [exact Hlog|]. split; [exact Hzero|]. split; [exact Hin|].
  exact (proj2 (silence_yields_no_fingerprint log2 _ _ _ _ _ _ _ Hlog Hzero
                  (or_intror Hin))).
Defined.

(** *** The loops on any integers *)

Lemma record_offset_stored_inv (h' h : string) (t' t : Z)
    (d : gmap string (list Z)) :
  stored (record_offset h' t' d) h t → t = t' ∨ stored d h t.
Proof.
  intros (ts & Hts & Ht). rewrite record_offset_lookup in Hts.
  case_decide as Hh; [|right; by exists ts].
  injection Hts as <-. apply elem_of_app in Ht as [Ht|Ht%list_elem_of_singleton];
    [right|by left].
  destruct (d !! h') as [ts|] eqn:Hd; [|by apply elem_of_nil in Ht].
  subst h'. by exists ts.
Qed.

Section HashesOn.
Variables (num : integers) (peaks : list (Z * Z)) (fan_value lo hi : Z).

(** The loops store times of peaks only. *)
Lemma anchor_loop_on_offsets i d d' :
  anchor_loop_on num peaks fan_value lo hi i d = Ok d' →
  offsets_from peaks d → offsets_from peaks d'.
Proof.
  unfold anchor_loop_on.
  destruct (getitem peaks i) as [[freq1 t1]|e] eqn:Hg1; run_bind; [|done].
  assert ((freq1, t1) ∈ peaks) as Hp1.
  { unfold getitem in Hg1.
    repeat case_match; simplify_eq; by eapply list_elem_of_lookup_2. }
  cbn [fst snd]. intros Hrun Hd. revert Hrun.
  apply (for_in_invariant (offsets_from peaks)); [|done].
  intros j u u' _ Hu. unfold second_peak_loop_on. case_match; [|by intros [= <-]].
  destruct (getitem peaks (i + j)) as [[freq2 t2]|e]; run_bind; [|done].
  cbn [fst snd]. apply (for_in_invariant (offsets_from peaks)); [|done].
  intros k w w' _ Hw. unfold third_peak_loop_on. case_match; [|by intros [= <-]].
  destruct (getitem peaks (i + k)) as [[freq3 t3]|e]; run_bind; [|done].
  cbn [fst snd]. repeat (case_match; [|by intros [= <-]]).
  destruct (true_divide num _ _) as [ratio|e]; [|done].
  intros [= <-] h t [->|Hold]%record_offset_stored_inv; [by exists freq1|].
  exact (Hw h t Hold).
Qed.

(** When the division raises nothing, the loops raise nothing. *)
Hypothesis Hdivide : ∀ a b, ∃ q, true_divide num a b = Ok q.

Lemma anchor_loop_on_total i d :
  0 ≤ i < Z.of_nat (length peaks) →
  ∃ d', anchor_loop_on num peaks fan_value lo hi i d = Ok d' ∧ True.
Proof.
  intros Hi. unfold anchor_loop_on.
  destruct (getitem_in_range peaks i) as ([freq1 t1] & -> & _); [lia|].
  run_bind. cbn [fst snd]. apply for_in_total; [|done].
  intros j u [? ?]%elem_of_range _. unfold second_peak_loop_on.
  case_match; [|by eauto].
  destruct (getitem_in_range peaks (i + j)) as ([freq2 t2] & -> & _); [lia|].
  run_bind. cbn [fst snd]. apply for_in_total; [|done].
  intros k w [? ?]%elem_of_range _. unfold third_peak_loop_on.
  case_match; [|by eauto].
  destruct (getitem_in_range peaks (i + k)) as ([freq3 t3] & -> & _); [lia|].
  run_bind. cbn [fst snd]. repeat (case_match; [|by eauto]).
  destruct (Hdivide (subtract num t2 t1) (subtract num t3 t1)) as [q ->].
  by eauto.
Qed.
End HashesOn.

Lemma generate_hashes_on_offsets num peaks fan_value lo hi peak_sort m :
  generate_hashes_on num peaks fan_value lo hi peak_sort = Ok m →
  offsets_from peaks m.
Proof.
  unfold generate_hashes_on. intros Hrun.
  assert (offsets_from (arrange peak_sort peaks) m) as Hm.
  { revert Hrun. apply for_in_invariant.
    - intros i d d' _ Hd Hstep. by eapply anchor_loop_on_offsets.
    - intros h t (ts & Hts & _). by rewrite lookup_empty in Hts. }
  intros h t Hst. destruct (Hm h t Hst) as [freq Hin].
  exists freq. by rewrite arrange_Permutation in Hin.
Qed.

Lemma generate_hashes_on_total num peaks fan_value lo hi peak_sort :
  (∀ a b, ∃ q, true_divide num a b = Ok q) →
  ∃ m, generate_hashes_on num peaks fan_value lo hi peak_sort = Ok m.
Proof.
  intros Hdivide. unfold generate_hashes_on.
  destruct (for_in_total (λ _, True)
              (range 0 (Z.of_nat (length (arrange peak_sort peaks))))
              (anchor_loop_on num (arrange peak_sort peaks) fan_value lo hi) ∅)
    as (m & Hm & _); [|done|by exists m].
  intros i d Hi%elem_of_range _. by apply anchor_loop_on_total.
Qed.

(** X14 (offsets are frames of the grid). The pipeline raises nothing: on
    the [np.int64] indices of the peaks no division raises. It returns a
    dictionary, and every offset that it stores is the time index of a
    cell of the grid whose amplitude is above the floor: the caller can
    read it as a frame of the spectrogram. *)
Theorem pipeline_offsets_are_grid_frames (outside : Z → Z → spec_float)
    (arr2D : ndarray) (fan_value : Z) (amp_min : spec_float)
    (min_hash_time_delta max_hash_time_delta : Z) (peak_sort : bool) :
  ∃ m, fingerprint_of_spectrogram outside arr2D fan_value amp_min
         min_hash_time_delta max_hash_time_delta peak_sort = Ok m ∧
    ∀ h ts t, m !! h = Some ts → t ∈ ts →
      ∃ freq amp, lookup2 arr2D freq t = Some amp ∧ SFltb amp_min amp = true.
Proof.
  unfold fingerprint_of_spectrogram.
  destruct (generate_hashes_on_total numpy_int64
              (get_2D_peaks outside arr2D amp_min) fan_value
              min_hash_time_delta max_hash_time_delta peak_sort) as [m Hrun];
    [by eauto|].
  exists m. split; [done|]. intros h ts t Hts Ht.
  destruct (generate_hashes_on_offsets _ _ _ _ _ _ _ Hrun h t) as [freq Hin];
    [by exists ts|].
  apply get_2D_peaks_detected in Hin as (_ & amp & Hamp & Habove).
  by exists freq, amp.
Qed.

(** X16 (the peaks are a one-shot iterator). [get_2D_peaks] returns a
    [zip] iterator and [generate_hashes] drains it with [list(peaks)]:
    after a first call on the returned object, a second call on the same
    object finds no peak and returns the empty dictionary, whatever the
    grid and the parameters of the two calls. *)
Theorem peaks_iterator_is_consumed (σ : store) (outside : Z → Z → spec_float)
    (arr2D : ndarray) (amp_min : spec_float)
    (fan_value lo hi fan_value' lo' hi' : Z) (peak_sort peak_sort' : bool) :
  let peaks := (call_get_2D_peaks outside arr2D amp_min σ).1 in
  let σ1 := (call_get_2D_peaks outside arr2D amp_min σ).2 in
  let first := call_generate_hashes peaks fan_value lo hi peak_sort σ1 in
  let second :=
    call_generate_hashes peaks fan_value' lo' hi' peak_sort' first.2 in
  (list_of peaks first.2).1 = [] ∧ second.1 = Ok ∅.
Proof.
  unfold call_get_2D_peaks, new_zip, call_generate_hashes, list_of.
  cbn [fst snd integers_of].
  rewrite list_lookup_insert_eq by (rewrite length_app; simpl; lia).
  cbn [default]. split; [done|]. apply generate_hashes_on_nil.
Qed.
